(** * Munajjam: the canonical JSON formatter for alignment results

    A shallow embedding of [munajjam/formatting.py] ([format_result] and
    [format_results]) together with the parts of the Python run time the two
    functions rely on: binary64 floats, the builtin [round], dictionaries,
    and a store of objects reached through references. *)

From Stdlib Require Import ZArith Lia Floats.SpecFloat.
From stdpp Require Import gmap strings list fin_maps.

Set Warnings "-register-all".
#[local] Open Scope Z_scope.

(** ** Exceptions and outcomes of a call *)

Inductive exn := OverflowError | AttributeError | TypeError.

Inductive outcome (A : Type) :=
| Ret (a : A)
| Raise (e : exn).
Arguments Ret {A} a.
Arguments Raise {A} e.

#[export] Instance outcome_ret : MRet outcome := λ A, Ret.
#[export] Instance outcome_bind : MBind outcome := λ A B f o,
  match o with
  | Ret a => f a
  | Raise e => Raise e
  end.

(** ** Python floats: IEEE 754 binary64

    A float is a [spec_float] of the Standard Library at precision 53 and
    maximal exponent 1024; subtraction and comparison are the library's. *)

Module PyFloat.

Definition prec : Z := 53.
Definition emax : Z := 1024.
Abbreviation float := spec_float.

(** A well-formed binary64 value: canonical mantissa, exponent in range. *)
Definition valid (x : float) : bool := valid_binary prec emax x.

Definition sub (x y : float) : float := SFsub prec emax x y.
Definition leb (x y : float) : bool := SFleb x y.
Definition eqb (x y : float) : bool := SFeqb x y.
Definition zero : float := S754_zero false.

Definition is_finite (x : float) : bool :=
  match x with
  | S754_zero _ | S754_finite _ _ _ => true
  | S754_infinity _ | S754_nan => false
  end.

(** [round_half_even a b]: the integer nearest to the rational [a / b]
    (for [0 <= a], [0 < b]), ties going to the even neighbour. *)
Definition round_half_even (a b : Z) : Z :=
  let q := a / b in
  match 2 * (a mod b) ?= b with
  | Lt => q
  | Gt => q + 1
  | Eq => if Z.even q then q else q + 1
  end.

(** [nearest s a b]: the binary64 value nearest to the rational [a / b]
    (for [0 <= a], [0 < b]) with sign [s], ties to even; an infinity on
    overflow.  The quotient is first expressed in units of [2 ^ -1074], the
    spacing of the subnormals; [sh] is the number of low bits that do not fit
    in a 53-bit mantissa. *)
Definition nearest (s : bool) (a b : Z) : float :=
  let num := a * 2 ^ 1074 in
  let sh := Z.max 0 (Z.log2 (num / b) + 1 - prec) in
  let m := round_half_even num (b * 2 ^ sh) in
  let '(m, e) := if m =? 2 ^ prec then (2 ^ (prec - 1), sh + 1 - 1074)
                 else (m, sh - 1074) in
  if m =? 0 then S754_zero s
  else if emax - prec <? e then S754_infinity s
  else S754_finite s (Z.to_pos m) e.

(** [decimal s d e10]: the float denoted by the decimal numeral
    [(-1)^s * d * 10^e10], as a float literal or [strtod] yields it. *)
Definition decimal (s : bool) (d e10 : Z) : float :=
  if 0 <=? e10 then nearest s (d * 10 ^ e10) 1 else nearest s d (10 ^ (- e10)).

Definition NDIGITS_MAX : Z := 323.
Definition NDIGITS_MIN : Z := -308.

(** The exact value of [m * 2^e * 10^ndigits] as a fraction. *)
Definition scaled (m : positive) (e ndigits : Z) : Z * Z :=
  let '(a, b) := if 0 <=? e then (Z.pos m * 2 ^ e, 1) else (Z.pos m, 2 ^ (- e)) in
  if 0 <=? ndigits then (a * 10 ^ ndigits, b) else (a, b * 10 ^ (- ndigits)).

(** The builtin [round(x, ndigits)] on a float with an integer [ndigits]:
    non-finite values and zeros round to themselves; beyond [NDIGITS_MAX]
    digits the value is unchanged, below [NDIGITS_MIN] it is a signed zero;
    otherwise the exact value is rounded half-even to [ndigits] decimal
    places and the resulting decimal numeral is converted back to the
    nearest float, raising [OverflowError] when that is not finite. *)
Definition round (x : float) (ndigits : Z) : outcome float :=
  match x with
  | S754_finite s m e =>
      if NDIGITS_MAX <? ndigits then Ret x
      else if ndigits <? NDIGITS_MIN then Ret (S754_zero s)
      else
        let '(a, b) := scaled m e ndigits in
        match decimal s (round_half_even a b) (- ndigits) with
        | S754_infinity _ => Raise OverflowError
        | y => Ret y
        end
  | _ => Ret x
  end.

(** The sign of a value that is not a NaN. *)
Definition has_sign (s : bool) (x : float) : Prop :=
  match x with
  | S754_zero s' | S754_infinity s' | S754_finite s' _ _ => s' = s
  | S754_nan => False
  end.

(** A finite value within the binary64 range: a mantissa below [2 ^ prec]
    and an exponent of at most [emax - prec]. *)
Definition in_range (x : float) : Prop :=
  match x with
  | S754_finite _ m e => Z.pos m < 2 ^ prec ∧ e <= emax - prec
  | _ => True
  end.

End PyFloat.

Import PyFloat.

(** ** Python values that a dictionary can hold *)

Definition loc := positive.

Inductive pyval :=
| VNone
| VBool (b : bool)
| VInt (z : Z)
| VFloat (f : float)
| VStr (s : string)
| VList (l : list pyval)
| VDict (d : gmap string pyval)
| VObj (l : loc).

(** A dict display [{k1: v1, ..., kn: vn}]: the items are stored from left
    to right, a later item replacing an earlier one with the same key. *)
Definition py_dict (items : list (string * pyval)) : gmap string pyval :=
  foldl (λ d kv, <[kv.1 := kv.2]> d) ∅ items.

(** Values of the types [json.dumps] is claimed to receive: int, float, str,
    bool, and lists and dicts of such values. *)
Fixpoint json_type (v : pyval) : bool :=
  match v with
  | VNone | VObj _ => false
  | VBool _ | VInt _ | VFloat _ | VStr _ => true
  | VList l => forallb json_type l
  | VDict d => map_fold (λ _ x acc, json_type x && acc) true d
  end.

(** ** The data model of [munajjam.models] *)

Module Ayah.
(** Modelled from the spec: the class [Ayah] of [munajjam.models] (not
    among the sources): an integer [surah_id], an integer [ayah_number]
    and the reference [text]. *)
Record t := mk { surah_id : Z; ayah_number : Z; text : string }.
End Ayah.

Module AlignmentResult.
(** Modelled from the spec: the class [AlignmentResult] of
    [munajjam.models] (not among the sources), with the six attributes its
    constructor receives in the unit tests; [ayah] refers to an [Ayah]
    object. *)
Record t := mk {
  ayah : loc;
  start_time : float;
  end_time : float;
  transcribed_text : string;
  similarity_score : float;
  overlap_detected : bool
}.

(** Modelled from the spec: the derived attribute [duration], "derived =
    end_time - start_time, not independently settable". *)
Definition duration (r : t) : float := sub (end_time r) (start_time r).

(** Modelled from the spec: the derived attribute [is_high_confidence],
    [similarity_score >= threshold] for the threshold in effect. *)
Definition is_high_confidence (threshold : float) (r : t) : bool :=
  leb threshold (similarity_score r).
End AlignmentResult.

(** ** The object store and the monad of Python computations *)

Inductive obj :=
| OAyah (a : Ayah.t)
| OResult (r : AlignmentResult.t)
| OList (items : list loc).

Abbreviation heap := (gmap loc obj).

(** A computation reads and may update the store, and returns or raises. *)
Definition M (A : Type) : Type := heap → outcome A * heap.

#[export] Instance M_ret : MRet M := λ A a h, (Ret a, h).
#[export] Instance M_bind : MBind M := λ A B f m h,
  match m h with
  | (Ret a, h') => f a h'
  | (Raise e, h') => (Raise e, h')
  end.

Definition lift {A} (o : outcome A) : M A := λ h, (o, h).

(** Attribute access on an instance of a class: [AttributeError] when the
    reference does not hold an instance of that class. *)
Definition load_result (l : loc) : M AlignmentResult.t := λ h,
  match h !! l with
  | Some (OResult r) => (Ret r, h)
  | _ => (Raise AttributeError, h)
  end.

Definition load_ayah (l : loc) : M Ayah.t := λ h,
  match h !! l with
  | Some (OAyah a) => (Ret a, h)
  | _ => (Raise AttributeError, h)
  end.

(** Iteration over the object behind a reference: [TypeError] when it is not
    a list. *)
Definition load_list (l : loc) : M (list loc) := λ h,
  match h !! l with
  | Some (OList items) => (Ret items, h)
  | _ => (Raise TypeError, h)
  end.

(** Assignment to the object behind a reference.  The formatter never uses
    it; it is what a mutation of an input would be. *)
Definition store (l : loc) (o : obj) : M unit := λ h, (Ret tt, <[l := o]> h).

(** [result.f] *)
Definition attr {A} (f : AlignmentResult.t → A) (result : loc) : M A :=
  r ← load_result result; mret (f r).

(** [result.ayah.f] *)
Definition ayah_attr {A} (f : Ayah.t → A) (result : loc) : M A :=
  r ← load_result result; a ← load_ayah (AlignmentResult.ayah r); mret (f a).

(** ** munajjam/formatting.py *)

Section Formatting.

(** The threshold of [is_high_confidence] in effect in [munajjam.models]. *)
Variable threshold : float.

Definition format_result (result : loc) (precision : Z) : M (gmap string pyval) :=
  ayah_number ← ayah_attr Ayah.ayah_number result;
  surah_id ← ayah_attr Ayah.surah_id result;
  start_time ← (x ← attr AlignmentResult.start_time result; lift (round x precision));
  end_time ← (x ← attr AlignmentResult.end_time result; lift (round x precision));
  duration ← (x ← attr AlignmentResult.duration result; lift (round x precision));
  transcribed_text ← attr AlignmentResult.transcribed_text result;
  reference_text ← ayah_attr Ayah.text result;
  similarity_score ←
    (x ← attr AlignmentResult.similarity_score result; lift (round x precision));
  is_high_confidence ← attr (AlignmentResult.is_high_confidence threshold) result;
  overlap_detected ← attr AlignmentResult.overlap_detected result;
  mret (py_dict [
    ("ayah_number", VInt ayah_number);
    ("surah_id", VInt surah_id);
    ("start_time", VFloat start_time);
    ("end_time", VFloat end_time);
    ("duration", VFloat duration);
    ("transcribed_text", VStr transcribed_text);
    ("reference_text", VStr reference_text);
    ("similarity_score", VFloat similarity_score);
    ("is_high_confidence", VBool is_high_confidence);
    ("overlap_detected", VBool overlap_detected)
  ]).

Definition format_results (results : loc) (surah_id : option Z)
    (reciter : option string) (precision : Z) : M (gmap string pyval) :=
  items ← load_list results;
  ayahs ← mapM (λ r, d ← format_result r precision; mret (VDict d)) items;
  let output := py_dict [("ayahs", VList ayahs)] in
  let output :=
    match surah_id with
    | Some s => <["surah_id" := VInt s]> output
    | None => output
    end in
  let output :=
    match reciter with
    | Some s => <["reciter" := VStr s]> output
    | None => output
    end in
  mret output.

(** The default of the [precision] parameter of both functions. *)
Definition default_precision : Z := 3.

(** A call that passes [precision] or leaves it out. *)
Definition call_format_result (result : loc) (precision : option Z) :=
  format_result result (default default_precision precision).

Definition call_format_results (results : loc) (surah_id : option Z)
    (reciter : option string) (precision : option Z) :=
  format_results results surah_id reciter (default default_precision precision).

End Formatting.

(** ** What the formatter reads, and what it returns

    The formatter only reads the store.  [read_result] resolves the two
    references behind [result] and [result.ayah]; [format_result_value] and
    [format_results_value] are the outcomes of the two functions as functions
    of the store (lemmas [format_result_run] and [format_results_run]). *)

Definition read_result (h : heap) (result : loc)
    : outcome (AlignmentResult.t * Ayah.t) :=
  match h !! result with
  | Some (OResult r) =>
      match h !! AlignmentResult.ayah r with
      | Some (OAyah a) => Ret (r, a)
      | _ => Raise AttributeError
      end
  | _ => Raise AttributeError
  end.

Definition canonical_dict (threshold : float) (r : AlignmentResult.t) (a : Ayah.t)
    (start_time end_time duration similarity_score : float) : gmap string pyval :=
  py_dict [
    ("ayah_number", VInt (Ayah.ayah_number a));
    ("surah_id", VInt (Ayah.surah_id a));
    ("start_time", VFloat start_time);
    ("end_time", VFloat end_time);
    ("duration", VFloat duration);
    ("transcribed_text", VStr (AlignmentResult.transcribed_text r));
    ("reference_text", VStr (Ayah.text a));
    ("similarity_score", VFloat similarity_score);
    ("is_high_confidence", VBool (AlignmentResult.is_high_confidence threshold r));
    ("overlap_detected", VBool (AlignmentResult.overlap_detected r))
  ].

Definition rounded_dict (threshold : float) (r : AlignmentResult.t) (a : Ayah.t)
    (precision : Z) : outcome (gmap string pyval) :=
  start_time ← round (AlignmentResult.start_time r) precision;
  end_time ← round (AlignmentResult.end_time r) precision;
  duration ← round (AlignmentResult.duration r) precision;
  similarity_score ← round (AlignmentResult.similarity_score r) precision;
  mret (canonical_dict threshold r a start_time end_time duration similarity_score).

Definition format_result_value (threshold : float) (h : heap) (result : loc)
    (precision : Z) : outcome (gmap string pyval) :=
  ra ← read_result h result; rounded_dict threshold ra.1 ra.2 precision.

Definition results_dict (surah_id : option Z) (reciter : option string)
    (ayahs : list pyval) : gmap string pyval :=
  let output := py_dict [("ayahs", VList ayahs)] in
  let output := from_option (λ s, <["surah_id" := VInt s]> output) output surah_id in
  from_option (λ s, <["reciter" := VStr s]> output) output reciter.

Definition format_results_value (threshold : float) (h : heap) (results : loc)
    (surah_id : option Z) (reciter : option string) (precision : Z)
    : outcome (gmap string pyval) :=
  match h !! results with
  | Some (OList items) =>
      ayahs ← mapM (λ l, d ← format_result_value threshold h l precision;
                         mret (VDict d)) items;
      mret (results_dict surah_id reciter ayahs)
  | _ => Raise TypeError
  end.

(** ** Well-typed inputs *)

(** [result] refers to the instance [r] whose [ayah] refers to [a]. *)
Definition result_at (h : heap) (result : loc) (r : AlignmentResult.t)
    (a : Ayah.t) : Prop :=
  h !! result = Some (OResult r) ∧ h !! AlignmentResult.ayah r = Some (OAyah a).

(** The three float attributes hold binary64 values. *)
Definition floats_valid (r : AlignmentResult.t) : bool :=
  valid (AlignmentResult.start_time r) && valid (AlignmentResult.end_time r)
  && valid (AlignmentResult.similarity_score r).

Definition well_typed (h : heap) (result : loc) : Prop :=
  ∃ r a, result_at h result r a ∧ floats_valid r = true.

(** [results] refers to a list of well-typed alignment results. *)
Definition results_at (h : heap) (results : loc) (items : list loc) : Prop :=
  h !! results = Some (OList items) ∧ Forall (well_typed h) items.

(** Two instances with the same attribute values (their [ayah] references
    may differ, the objects referred to are compared separately). *)
Definition same_fields (r1 r2 : AlignmentResult.t) : Prop :=
  AlignmentResult.start_time r1 = AlignmentResult.start_time r2 ∧
  AlignmentResult.end_time r1 = AlignmentResult.end_time r2 ∧
  AlignmentResult.transcribed_text r1 = AlignmentResult.transcribed_text r2 ∧
  AlignmentResult.similarity_score r1 = AlignmentResult.similarity_score r2 ∧
  AlignmentResult.overlap_detected r1 = AlignmentResult.overlap_detected r2.

(** Two references, each in its own store, to instances with the same
    attribute values. *)
Definition same_result (h1 h2 : heap) (l1 l2 : loc) : Prop :=
  ∃ r1 r2 a, result_at h1 l1 r1 a ∧ result_at h2 l2 r2 a ∧ same_fields r1 r2.

Definition canonical_keys : gset string :=
  list_to_set [
    "ayah_number"; "surah_id"; "start_time"; "end_time"; "duration";
    "transcribed_text"; "reference_text"; "similarity_score";
    "is_high_confidence"; "overlap_detected"
  ].

(** The float stored under [key], if there is one. *)
Definition float_at (d : gmap string pyval) (key : string) : option float :=
  match d !! key with
  | Some (VFloat x) => Some x
  | _ => None
  end.

(** [d["duration"] == d["end_time"] - d["start_time"]] and
    [d["duration"] >= 0], as Python evaluates them. *)
Definition duration_consistent (d : gmap string pyval) : bool :=
  match float_at d "start_time", float_at d "end_time", float_at d "duration" with
  | Some st, Some en, Some du => eqb du (sub en st) && leb zero du
  | _, _, _ => false
  end.

(** The [ayah_number] entry of a formatted result. *)
Definition ayah_number_of (v : pyval) : option pyval :=
  match v with
  | VDict d => d !! "ayah_number"
  | _ => None
  end.

(** The [ayah_number] of the ayah of the result behind a reference. *)
Definition input_ayah_number (h : heap) (result : loc) : option pyval :=
  match read_result h result with
  | Ret (_, a) => Some (VInt (Ayah.ayah_number a))
  | Raise _ => None
  end.

(** ** Sample objects, after the fixtures of the unit tests

    The float literals are evaluated once, here. *)

Module Sample.
(** [0.8] *)
Definition threshold : float := Eval vm_compute in decimal false 8 (-1).

Definition ayah1 : Ayah.t := Ayah.mk 1 1 "bismi allahi alrrahmani alrraheemi".
Definition ayah2 : Ayah.t := Ayah.mk 1 2 "alhamdu lillahi rabbi alAAalameena".

(** [start_time=5.6789, end_time=9.1234, similarity_score=0.9567] *)
Definition result1 : AlignmentResult.t := Eval vm_compute in
  AlignmentResult.mk 1%positive (decimal false 56789 (-4))
    (decimal false 91234 (-4)) "bismi allahi alrrahmani alrraheemi"
    (decimal false 9567 (-4)) false.

(** [start_time=10.0, end_time=14.0, similarity_score=0.72] *)
Definition result2 : AlignmentResult.t := Eval vm_compute in
  AlignmentResult.mk 2%positive (decimal false 10 0) (decimal false 14 0)
    "alhamdu lillahi rabbi alAAalameena" (decimal false 72 (-2)) true.

(** [start_time=0.0, end_time=1.7976931348623157e308], the largest float *)
Definition result3 : AlignmentResult.t := Eval vm_compute in
  AlignmentResult.mk 1%positive zero (decimal false 17976931348623157 292)
    "bismi" (decimal false 5 (-1)) false.

Definition store : heap :=
  <[7%positive := OList []]> (
  <[6%positive := OList [3; 4]%positive]> (
  <[5%positive := OResult result3]> (
  <[4%positive := OResult result2]> (
  <[3%positive := OResult result1]> (
  <[2%positive := OAyah ayah2]> (
  <[1%positive := OAyah ayah1]> ∅)))))).

(** [r] with its [ayah] reference replaced. *)
Definition moved (r : AlignmentResult.t) (ayah : loc) : AlignmentResult.t :=
  AlignmentResult.mk ayah (AlignmentResult.start_time r)
    (AlignmentResult.end_time r) (AlignmentResult.transcribed_text r)
    (AlignmentResult.similarity_score r) (AlignmentResult.overlap_detected r).

(** A second store, with the same results and ayahs at other places. *)
Definition store2 : heap :=
  <[16%positive := OList [13; 14]%positive]> (
  <[14%positive := OResult (moved result2 12%positive)]> (
  <[13%positive := OResult (moved result1 11%positive)]> (
  <[12%positive := OAyah ayah2]> (
  <[11%positive := OAyah ayah1]> ∅)))).
End Sample.

(** ** Definitions for the further properties *)

(** [1.0] *)
Definition one : float := S754_finite false 4503599627370496 (-52).

(** A finite float whose exponent is at most [E]: its magnitude is below
    [2 ^ (E + prec)]. *)
Definition below (E : Z) (x : float) : Prop :=
  match x with
  | S754_finite _ m e => Z.pos m < 2 ^ prec ∧ e <= E
  | _ => True
  end.

(** The four keys whose values are rounded. *)
Definition float_keys : gset string :=
  list_to_set ["start_time"; "end_time"; "duration"; "similarity_score"].

(** The two optional assignments at the end of [format_results]. *)
Definition with_metadata (surah_id : option Z) (reciter : option string)
    (output : gmap string pyval) : gmap string pyval :=
  let output := from_option (λ s, <["surah_id" := VInt s]> output) output surah_id in
  from_option (λ s, <["reciter" := VStr s]> output) output reciter.

Module MoreSamples.
(** [start_time=10.0, end_time=10.0, similarity_score=nan] *)
Definition result4 : AlignmentResult.t := Eval vm_compute in
  AlignmentResult.mk 2%positive (decimal false 10 0) (decimal false 10 0)
    "maliki yawmi alddeeni" S754_nan false.

(** The sample store with one more result and three more lists: one holding
    the result with the largest float between the two fixtures, and the two
    singletons of the fixtures. *)
Definition store : heap :=
  <[11%positive := OResult result4]> (
  <[10%positive := OList [4]%positive]> (
  <[9%positive := OList [3]%positive]> (
  <[8%positive := OList [3; 5; 4]%positive]> Sample.store))).
End MoreSamples.

(** * Properties of the float model *)

(** ** Rounding a fraction to an integer *)

Lemma round_half_even_cases a b :
  round_half_even a b = a / b ∨
  (round_half_even a b = a / b + 1 ∧ b <= 2 * (a mod b)).
Proof.
  unfold round_half_even.
  destruct (Z.compare_spec (2 * (a mod b)) b) as [H|H|H];
    [destruct (Z.even (a / b)) | | ]; auto; right; split; auto; lia.
Qed.

Lemma round_half_even_1 a : round_half_even a 1 = a.
Proof.
  unfold round_half_even. rewrite Z.mod_1_r, Z.div_1_r. reflexivity.
Qed.

Lemma round_half_even_nonneg a b : 0 <= a → 0 < b → 0 <= round_half_even a b.
Proof.
  intros Ha Hb. pose proof (Z.div_pos a b Ha Hb).
  destruct (round_half_even_cases a b) as [-> | [-> _]]; lia.
Qed.

Lemma round_half_even_le a b : 0 <= a → 0 < b → round_half_even a b <= a / b + 1.
Proof.
  intros Ha Hb. destruct (round_half_even_cases a b) as [-> | [-> _]]; lia.
Qed.

Lemma round_half_even_lt a b n :
  0 < b → 2 * a < b * (2 * n - 1) → round_half_even a b < n.
Proof.
  intros Hb Hlt.
  pose proof (Z.div_mod a b ltac:(lia)) as Hdm.
  pose proof (Z.mod_pos_bound a b Hb) as Hr.
  destruct (round_half_even_cases a b) as [-> | [-> Hhalf]]; nia.
Qed.

(** ** Conversion of a fraction to the nearest float *)

Lemma nearest_sign s a b : has_sign s (nearest s a b).
Proof.
  unfold nearest.
  destruct (round_half_even _ _ =? 2 ^ prec);
    repeat match goal with |- context [if ?c then _ else _] => destruct c end;
    reflexivity.
Qed.

Lemma nearest_finite s a b :
  0 <= a → 0 < b → a < b * (2 ^ 1024 - 2 ^ 970) →
  is_finite (nearest s a b) = true.
Proof.
  intros Ha Hb Hlt. unfold nearest.
  set (num := a * 2 ^ 1074).
  set (sh := Z.max 0 (Z.log2 (num / b) + 1 - prec)).
  set (m := round_half_even num (b * 2 ^ sh)).
  assert (Hnum : num < b * (2 ^ 2098 - 2 ^ 2044)).
  { unfold num.
    replace (2 ^ 2098 - 2 ^ 2044) with ((2 ^ 1024 - 2 ^ 970) * 2 ^ 1074) by reflexivity.
    rewrite Z.mul_assoc. apply Z.mul_lt_mono_pos_r; [reflexivity | exact Hlt]. }
  assert (Hsh : sh <= 2045).
  { assert (Ht : num / b < 2 ^ 2098).
    { apply Z.div_lt_upper_bound; [exact Hb |].
      eapply Z.lt_trans; [exact Hnum |].
      apply Z.mul_lt_mono_pos_l; [exact Hb | reflexivity]. }
    assert (H0 : 0 <= num / b) by (apply Z.div_pos; unfold num; lia).
    assert (Z.log2 (num / b) < 2098).
    { destruct (Z.eq_dec (num / b) 0) as [-> | Hne]; [reflexivity |].
      apply Z.log2_lt_pow2; lia. }
    unfold sh, prec. lia. }
  assert (Hm : sh = 2045 → m < 2 ^ prec).
  { intros Heq. unfold m. rewrite Heq.
    apply round_half_even_lt; [lia |].
    replace (b * 2 ^ 2045 * (2 * 2 ^ prec - 1))
      with (2 * (b * (2 ^ 2098 - 2 ^ 2044))); [lia |].
    replace (2 ^ 2098 - 2 ^ 2044) with (2 ^ 2044 * (2 * 2 ^ prec - 1)) by reflexivity.
    replace (2 ^ 2045) with (2 * 2 ^ 2044) by reflexivity. ring. }
  destruct (m =? 2 ^ prec) eqn:Hbump.
  - apply Z.eqb_eq in Hbump.
    destruct (_ =? 0); [reflexivity |].
    destruct (emax - prec <? sh + 1 - 1074) eqn:Hov; [| reflexivity].
    apply Z.ltb_lt in Hov. unfold emax, prec in Hov.
    assert (sh = 2045) as Heq by lia. specialize (Hm Heq). lia.
  - destruct (m =? 0); [reflexivity |].
    destruct (emax - prec <? sh - 1074) eqn:Hov; [| reflexivity].
    apply Z.ltb_lt in Hov. unfold emax, prec in Hov. lia.
Qed.

(** ** The builtin [round] *)

Lemma decimal_sign s d e10 : has_sign s (decimal s d e10).
Proof. unfold decimal. destruct (0 <=? e10); apply nearest_sign. Qed.

Lemma scaled_bound m e p a b :
  Z.pos m < 2 ^ prec → e <= emax - prec → 0 <= p →
  scaled m e p = (a, b) →
  0 <= round_half_even a b < 10 ^ p * (2 ^ 1024 - 2 ^ 970).
Proof.
  intros Hm He Hp. unfold scaled, prec, emax in *.
  assert (H10 : 0 < 10 ^ p) by (apply Z.pow_pos_nonneg; lia).
  destruct (Z.leb_spec 0 p) as [_ | ?]; [| lia].
  destruct (Z.leb_spec 0 e) as [He0 | He0]; intros [= <- <-].
  - rewrite round_half_even_1.
    assert (0 < 2 ^ e) by (apply Z.pow_pos_nonneg; lia).
    assert (2 ^ e <= 2 ^ 971) by (apply Z.pow_le_mono_r; lia).
    assert (Z.pos m * 2 ^ e <= (2 ^ 53 - 1) * 2 ^ 971) by nia.
    assert ((2 ^ 53 - 1) * 2 ^ 971 < 2 ^ 1024 - 2 ^ 970) by reflexivity.
    nia.
  - assert (Hb : 0 < 2 ^ (- e)) by (apply Z.pow_pos_nonneg; lia).
    split; [apply round_half_even_nonneg; nia |].
    pose proof (round_half_even_le (Z.pos m * 10 ^ p) (2 ^ (- e)) ltac:(nia) Hb).
    assert (Z.pos m * 10 ^ p / 2 ^ (- e) <= Z.pos m * 10 ^ p)
      by (apply Z.div_le_upper_bound; nia).
    assert (2 ^ 53 < 2 ^ 1024 - 2 ^ 970) by reflexivity.
    nia.
Qed.

Lemma round_returns x p : in_range x → 0 <= p → ∃ y, round x p = Ret y.
Proof.
  intros Hx Hp. destruct x as [s | s | | s m e]; simpl; eauto.
  destruct Hx as [Hm He].
  destruct (NDIGITS_MAX <? p); [eauto |].
  destruct (Z.ltb_spec p NDIGITS_MIN) as [Hlo | _]; [eauto |].
  destruct (scaled m e p) as [a b] eqn:Hs.
  pose proof (scaled_bound m e p a b Hm He Hp Hs) as [Hn0 Hn].
  assert (Hfin : is_finite (decimal s (round_half_even a b) (- p)) = true).
  { unfold decimal. destruct (Z.leb_spec 0 (- p)).
    - assert (p = 0) as -> by lia. simpl (- 0). rewrite Z.pow_0_r, Z.mul_1_r.
      apply nearest_finite; [lia | lia |]. rewrite Z.pow_0_r in Hn. lia.
    - rewrite Z.opp_involutive. apply nearest_finite; [lia | | lia].
      apply Z.pow_pos_nonneg; lia. }
  destruct (decimal s _ _); try discriminate Hfin; eauto.
Qed.

Lemma round_nonneg x p y : leb zero x = true → round x p = Ret y → leb zero y = true.
Proof.
  intros Hx. destruct x as [s | s | | s m e]; simpl; try (intros [= <-]; exact Hx).
  assert (s = false) as -> by (destruct s; [discriminate Hx | reflexivity]).
  destruct (NDIGITS_MAX <? p); [intros [= <-]; reflexivity |].
  destruct (p <? NDIGITS_MIN); [intros [= <-]; reflexivity |].
  destruct (scaled m e p) as [a b].
  pose proof (decimal_sign false (round_half_even a b) (- p)) as Hs.
  destruct (decimal false _ _) as [s' | s' | | s' m' e']; simpl in Hs;
    try contradiction; intros [= <-]; subst s'; reflexivity.
Qed.

(** ** Binary64 arithmetic of the Standard Library *)

Lemma digits2_pos_bounds m :
  2 ^ (Z.pos (digits2_pos m) - 1) <= Z.pos m < 2 ^ Z.pos (digits2_pos m).
Proof.
  induction m as [m IH | m IH |]; simpl digits2_pos.
  - rewrite Pos2Z.inj_succ, Z.pow_succ_r by lia.
    replace (Z.succ (Z.pos (digits2_pos m)) - 1)
      with (Z.succ (Z.pos (digits2_pos m) - 1)) by lia.
    rewrite Z.pow_succ_r by lia. lia.
  - rewrite Pos2Z.inj_succ, Z.pow_succ_r by lia.
    replace (Z.succ (Z.pos (digits2_pos m)) - 1)
      with (Z.succ (Z.pos (digits2_pos m) - 1)) by lia.
    rewrite Z.pow_succ_r by lia. lia.
  - simpl. lia.
Qed.

Lemma Zdigits2_bound m : 0 <= m → 0 <= Zdigits2 m ∧ m < 2 ^ Zdigits2 m.
Proof.
  destruct m as [| m | m]; simpl; intros H; [lia | | lia].
  pose proof (digits2_pos_bounds m). lia.
Qed.

Lemma canonical_digits m e :
  canonical_mantissa prec emax m e = true →
  emin prec emax <= e ∧ Z.pos (digits2_pos m) <= prec ∧
  (emin prec emax < e → Z.pos (digits2_pos m) = prec).
Proof.
  unfold canonical_mantissa, fexp. intros H%Z.eqb_eq. lia.
Qed.

Lemma valid_in_range x : valid x = true → in_range x.
Proof.
  destruct x as [| | | s m e]; simpl; trivial.
  unfold valid, valid_binary, bounded. intros [Hc He%Z.leb_le]%andb_prop.
  apply canonical_digits in Hc as (_ & Hd & _).
  pose proof (digits2_pos_bounds m) as [_ Hm].
  split; [| exact He].
  eapply Z.lt_le_trans; [exact Hm |]. apply Z.pow_le_mono_r; lia.
Qed.

(** *** Right shifts of the rounding record *)

Lemma shr_1_m mrs : 0 <= shr_m mrs → shr_m (shr_1 mrs) = shr_m mrs / 2.
Proof.
  destruct mrs as [m r s]. simpl.
  destruct m as [| [p | p |] | p]; intros H; try lia;
    rewrite <- Z.div2_div; reflexivity.
Qed.

Lemma iter_shr_1_m p mrs :
  0 <= shr_m mrs → shr_m (SpecFloat.iter_pos shr_1 p mrs) = shr_m mrs / 2 ^ Z.pos p.
Proof.
  revert mrs. induction p as [p IH | p IH |]; intros mrs H; simpl SpecFloat.iter_pos.
  - assert (H1 : 0 <= shr_m (shr_1 mrs))
      by (rewrite shr_1_m by exact H; apply Z.div_pos; lia).
    assert (Hp : 0 < 2 ^ Z.pos p) by (apply Z.pow_pos_nonneg; lia).
    assert (H2 : 0 <= shr_m (SpecFloat.iter_pos shr_1 p (shr_1 mrs)))
      by (rewrite IH by exact H1; apply Z.div_pos; lia).
    rewrite IH, IH, shr_1_m by assumption.
    rewrite !Z.div_div by lia. f_equal.
    replace (Z.pos p~1) with (1 + Z.pos p + Z.pos p) by lia.
    rewrite !Z.pow_add_r by lia. change (2 ^ 1) with 2. ring.
  - assert (Hp : 0 < 2 ^ Z.pos p) by (apply Z.pow_pos_nonneg; lia).
    assert (H2 : 0 <= shr_m (SpecFloat.iter_pos shr_1 p mrs))
      by (rewrite IH by exact H; apply Z.div_pos; lia).
    rewrite IH, IH by assumption.
    rewrite Z.div_div by lia. f_equal.
    replace (Z.pos p~0) with (Z.pos p + Z.pos p) by lia.
    rewrite Z.pow_add_r by lia. ring.
  - simpl. apply shr_1_m, H.
Qed.

Lemma shr_m_of_loc m l : shr_m (shr_record_of_loc m l) = m.
Proof. destruct l as [| []]; reflexivity. Qed.

Lemma shr_fexp_bound m e l :
  0 <= m → 0 <= shr_m (shr_fexp prec emax m e l).1 < 2 ^ prec.
Proof.
  intros Hm. destruct (Zdigits2_bound m Hm) as [Hd0 Hd].
  unfold shr_fexp, shr, fexp.
  set (d := Zdigits2 m) in *.
  destruct (Z.max (d + e - prec) (emin prec emax) - e) as [| n | n] eqn:Hn;
    simpl fst.
  1, 3: rewrite shr_m_of_loc; split; [exact Hm |];
    eapply Z.lt_le_trans; [exact Hd |]; apply Z.pow_le_mono_r; lia.
  rewrite iter_shr_1_m by (rewrite shr_m_of_loc; exact Hm).
  rewrite shr_m_of_loc.
  assert (Hp : 0 < 2 ^ Z.pos n) by (apply Z.pow_pos_nonneg; lia).
  split; [apply Z.div_pos; lia |].
  apply Z.div_lt_upper_bound; [exact Hp |].
  rewrite <- Z.pow_add_r by (unfold prec; lia).
  eapply Z.lt_le_trans; [exact Hd |]. apply Z.pow_le_mono_r; lia.
Qed.

Lemma round_nearest_even_nonneg m l : 0 <= m → 0 <= round_nearest_even m l.
Proof.
  intros H. destruct l as [| []]; simpl; try lia. destruct (Z.even m); lia.
Qed.

(** The rounding step of every arithmetic operation keeps the sign it is
    given and yields a zero, an infinity or a finite value within range. *)
Lemma binary_round_aux_shape sx mx ex lx :
  0 <= mx →
  has_sign sx (binary_round_aux prec emax sx mx ex lx) ∧
  in_range (binary_round_aux prec emax sx mx ex lx).
Proof.
  intros Hm. unfold binary_round_aux.
  pose proof (shr_fexp_bound mx ex lx Hm) as H1.
  destruct (shr_fexp prec emax mx ex lx) as [mrs' e']. simpl fst in H1.
  pose proof (round_nearest_even_nonneg (shr_m mrs') (loc_of_shr_record mrs')
                ltac:(lia)) as H2.
  pose proof (shr_fexp_bound _ e' loc_Exact H2) as H3.
  destruct (shr_fexp prec emax _ e' loc_Exact) as [mrs'' e'']. simpl fst in H3.
  destruct (shr_m mrs'') as [| m | m]; [simpl; auto | | lia].
  destruct (Z.leb_spec e'' (emax - prec)); simpl; auto.
  split; [reflexivity | lia].
Qed.

Lemma binary_round_shape sx mx ex :
  has_sign sx (binary_round prec emax sx mx ex) ∧
  in_range (binary_round prec emax sx mx ex).
Proof.
  unfold binary_round. destruct (shl_align _ _ _) as [mz ez].
  apply binary_round_aux_shape. lia.
Qed.

Lemma binary_normalize_in_range m e szero :
  in_range (binary_normalize prec emax m e szero).
Proof.
  destruct m; simpl; [trivial | apply binary_round_shape ..].
Qed.

Lemma binary_normalize_nonneg m e :
  0 <= m → leb zero (binary_normalize prec emax m e false) = true.
Proof.
  destruct m as [| m | m]; simpl; intros H; [reflexivity | | lia].
  destruct (binary_round_shape false m e) as [Hs _].
  destruct (binary_round _ _ _ _ _) as [s | s | | s m' e'];
    simpl in Hs; try contradiction; subst s; reflexivity.
Qed.

(** *** Subtraction *)

Lemma sub_in_range x y : in_range x → in_range y → in_range (sub x y).
Proof.
  unfold sub.
  destruct x as [sx | sx | | sx mx ex], y as [sy | sy | | sy my ey];
    simpl; trivial;
    try (destruct sx, sy; simpl; trivial; fail).
  intros _ _. apply binary_normalize_in_range.
Qed.

Lemma shl_align_value mx ex ez :
  ez <= ex → Z.pos (shl_align mx ex ez).1 = Z.pos mx * 2 ^ (ex - ez).
Proof.
  intros H. unfold shl_align.
  destruct (ez - ex) as [| d | d] eqn:Hd; simpl fst; try lia.
  - replace (ex - ez) with 0 by lia. lia.
  - replace (ex - ez) with (Z.pos d) by lia.
    clear Hd H. induction d as [| d IH] using Pos.peano_ind.
    + simpl. lia.
    + rewrite Pos.iter_succ, Pos2Z.inj_xO, IH, Pos2Z.inj_succ, Z.pow_succ_r by lia.
      ring.
Qed.

(** Of two canonical finite values, the one with the larger exponent has the
    larger magnitude. *)
Lemma canonical_exponent_lt mx ex my ey :
  canonical_mantissa prec emax mx ex = true →
  canonical_mantissa prec emax my ey = true →
  ey < ex → Z.pos my < Z.pos mx * 2 ^ (ex - ey).
Proof.
  intros (_ & _ & Hx)%canonical_digits (Hy0 & Hy & _)%canonical_digits Hlt.
  pose proof (digits2_pos_bounds mx) as [Hmx _].
  pose proof (digits2_pos_bounds my) as [_ Hmy].
  rewrite Hx in Hmx by lia.
  assert (Z.pos my < 2 ^ prec)
    by (eapply Z.lt_le_trans; [exact Hmy |]; apply Z.pow_le_mono_r; lia).
  assert (2 ^ 1 <= 2 ^ (ex - ey)) by (apply Z.pow_le_mono_r; lia).
  change (2 ^ prec) with (2 * 2 ^ (prec - 1)) in *.
  change (2 ^ 1) with 2 in *. nia.
Qed.

Lemma sub_nonneg x y :
  valid x = true → valid y = true → is_finite y = true →
  leb y x = true → leb zero (sub x y) = true.
Proof.
  unfold valid, sub, leb.
  destruct x as [sx | sx | | sx mx ex], y as [sy | sy | | sy my ey];
    simpl; try discriminate;
    try (destruct sx, sy; simpl; (discriminate || reflexivity)).
  unfold bounded. intros [Hcx _]%andb_prop [Hcy _]%andb_prop _ Hle.
  apply binary_normalize_nonneg.
  unfold SFleb, SFcompare in Hle.
  destruct (Z.min_spec ex ey) as [[Hlt ->] | [Hge ->]].
  - rewrite (shl_align_value mx ex ex), (shl_align_value my ey ex) by lia.
    rewrite Z.sub_diag, Z.mul_1_r.
    pose proof (canonical_exponent_lt my ey mx ex Hcy Hcx Hlt).
    destruct sx, sy; simpl; try lia; try discriminate Hle.
    rewrite (proj2 (Z.compare_gt_iff ey ex) Hlt) in Hle. discriminate.
  - rewrite (shl_align_value mx ex ey), (shl_align_value my ey ey) by lia.
    rewrite Z.sub_diag, Z.mul_1_r.
    destruct (Z.compare_spec ey ex) as [Heq | Hlt | Hgt]; [| | lia].
    + subst ey. rewrite Z.sub_diag, Z.mul_1_r.
      change (PosDef.Pos.compare_cont Eq ?p ?q) with (Pos.compare p q) in Hle.
      destruct (Pos.compare_spec my mx); destruct sx, sy; simpl in *;
        (discriminate || lia).
    + pose proof (canonical_exponent_lt mx ex my ey Hcx Hcy Hlt).
      destruct sx, sy; simpl; try lia; discriminate Hle.
Qed.

(** ** The model against values computed by CPython *)

Example decimal_5_6789 :
  decimal false 56789 (-4) = S754_finite false 6393872980968577 (-50).
Proof. vm_compute. reflexivity. Qed.

Example decimal_largest :
  decimal false 17976931348623157 292 = S754_finite false 9007199254740991 971.
Proof. vm_compute. reflexivity. Qed.

Example decimal_smallest : decimal false 5 (-324) = S754_finite false 1 (-1074).
Proof. vm_compute. reflexivity. Qed.

Example sample_times_valid :
  valid (decimal false 56789 (-4)) = true ∧ valid (decimal false 91234 (-4)) = true.
Proof. repeat apply conj; vm_compute; reflexivity. Qed.

(** [round(5.6789, 3) == 5.679] *)
Example round_5_6789_3 :
  round (decimal false 56789 (-4)) 3 = Ret (decimal false 5679 (-3)).
Proof. vm_compute. reflexivity. Qed.

(** [round(0.9567, 3) == 0.957] *)
Example round_0_9567_3 :
  round (decimal false 9567 (-4)) 3 = Ret (decimal false 957 (-3)).
Proof. vm_compute. reflexivity. Qed.

(** [round(2.675, 2) == 2.67]: the float below the decimal 2.675 is rounded. *)
Example round_2_675_2 :
  round (decimal false 2675 (-3)) 2 = Ret (decimal false 267 (-2)).
Proof. vm_compute. reflexivity. Qed.

(** [round(0.5, 0) == 0.0], [round(1.5, 0) == 2.0], [round(2.5, 0) == 2.0] *)
Example round_ties_to_even :
  round (decimal false 5 (-1)) 0 = Ret zero ∧
  round (decimal false 15 (-1)) 0 = Ret (decimal false 2 0) ∧
  round (decimal false 25 (-1)) 0 = Ret (decimal false 2 0).
Proof. repeat apply conj; vm_compute; reflexivity. Qed.

(** [round(1234.5678, -2) == 1200.0], [round(123.456, -400) == 0.0],
    [round(-0.0001, 2) == -0.0], [round(5e-324, 400) == 5e-324] *)
Example round_other_digits :
  round (decimal false 12345678 (-4)) (-2) = Ret (decimal false 1200 0) ∧
  round (decimal false 123456 (-3)) (-400) = Ret zero ∧
  round (decimal true 1 (-4)) 2 = Ret (S754_zero true) ∧
  round (decimal false 5 (-324)) 400 = Ret (decimal false 5 (-324)).
Proof. repeat apply conj; vm_compute; reflexivity. Qed.

(** [round(1.7976931348623157e308, -308)] raises [OverflowError]. *)
Example round_largest_overflows :
  round (decimal false 17976931348623157 292) (-308) = Raise OverflowError.
Proof. vm_compute. reflexivity. Qed.

(** On quotients of two floats [nearest] is the library's division. *)
Example nearest_is_division :
  nearest false 1 3
  = SFdiv prec emax (S754_finite false 1 0) (S754_finite false 3 0) ∧
  nearest false 7 (3 * 2 ^ 1074)
  = SFdiv prec emax (S754_finite false 7 (-1074)) (S754_finite false 3 0).
Proof. repeat apply conj; vm_compute; reflexivity. Qed.

Lemma Ret_inj {A} (x y : A) : Ret x = Ret y → x = y.
Proof. by intros [= ->]. Qed.

Lemma round_raises x p e : round x p = Raise e → e = OverflowError.
Proof.
  destruct x as [s | s | | s m e']; simpl; try discriminate.
  destruct (NDIGITS_MAX <? p); [discriminate |].
  destruct (p <? NDIGITS_MIN); [discriminate |].
  destruct (scaled m e' p) as [a b].
  destruct (decimal s _ _); congruence.
Qed.

Lemma round_returns_below x p : p < NDIGITS_MIN → ∃ y, round x p = Ret y.
Proof.
  intros Hp. destruct x as [s | s | | s m e]; simpl; eauto.
  destruct (NDIGITS_MAX <? p); [eauto |].
  destruct (Z.ltb_spec p NDIGITS_MIN); [eauto | lia].
Qed.

(** * The formatter as a reader of the store *)

Lemma mapM_cons_M {A B} (f : A → M B) x l h :
  mapM f (x :: l) h =
  match f x h with
  | (Ret y, h') =>
      match mapM f l h' with
      | (Ret k, h'') => (Ret (y :: k), h'')
      | (Raise e, h'') => (Raise e, h'')
      end
  | (Raise e, h') => (Raise e, h')
  end.
Proof. reflexivity. Qed.

Lemma mapM_cons_outcome {A B} (g : A → outcome B) x l :
  mapM g (x :: l) =
  match g x with
  | Ret y => match mapM g l with Ret k => Ret (y :: k) | Raise e => Raise e end
  | Raise e => Raise e
  end.
Proof. reflexivity. Qed.

Lemma mapM_run {A B} (f : A → M B) (g : heap → A → outcome B) :
  (∀ x h, f x h = (g h x, h)) →
  ∀ l h, mapM f l h = (mapM (g h) l, h).
Proof.
  intros Hf l h. induction l as [| x l IH]; [reflexivity |].
  rewrite mapM_cons_M, mapM_cons_outcome, Hf.
  destruct (g h x) as [y | e]; [| reflexivity].
  rewrite IH. destruct (mapM (g h) l); reflexivity.
Qed.

Lemma mapM_Ret {A B} (g : A → outcome B) l k :
  mapM g l = Ret k ↔ Forall2 (λ x y, g x = Ret y) l k.
Proof.
  revert k. induction l as [| x l IH]; intros k.
  - split; [intros [= <-]; constructor | intros ->%Forall2_nil_inv_l; reflexivity].
  - rewrite mapM_cons_outcome. split.
    + destruct (g x) as [y |] eqn:Hx; [| discriminate].
      destruct (mapM g l) as [ys |]; [| discriminate].
      intros [= <-]. constructor; [exact Hx | by apply IH].
    + intros (y & ys & Hx & Hl & ->)%Forall2_cons_inv_l.
      rewrite Hx. apply IH in Hl. rewrite Hl. reflexivity.
Qed.

Lemma mapM_returns {A B} (g : A → outcome B) l :
  Forall (λ x, ∃ y, g x = Ret y) l → ∃ k, mapM g l = Ret k.
Proof.
  induction 1 as [| x l [y Hx] _ [k Hk]]; [by exists [] |].
  exists (y :: k). apply mapM_Ret. constructor; [exact Hx | by apply mapM_Ret].
Qed.

Lemma mapM_raises {A B} (g : A → outcome B) l e :
  mapM g l = Raise e → ∃ x, x ∈ l ∧ g x = Raise e.
Proof.
  induction l as [| x l IH]; [discriminate |].
  rewrite mapM_cons_outcome.
  destruct (g x) as [y |] eqn:Hx.
  - destruct (mapM g l); [discriminate |].
    intros [= ->]. destruct IH as (x' & ? & ?); [reflexivity |].
    exists x'. split; [by right | done].
  - intros [= ->]. exists x. split; [by left | done].
Qed.

(** An assignment does change the store; the two functions below do not. *)
Lemma store_writes l o h : (store l o h).2 !! l = Some o.
Proof. apply lookup_insert_eq. Qed.

Section Reader.

Variable threshold : float.

Lemma format_result_run h l p :
  format_result threshold l p h = (format_result_value threshold h l p, h).
Proof.
  unfold format_result, format_result_value, read_result, rounded_dict,
    canonical_dict, ayah_attr, attr, lift, load_result, load_ayah.
  unfold mbind, mret, M_bind, M_ret, outcome_bind, outcome_ret.
  destruct (h !! l) as [[a | r | items] |] eqn:Hl; try reflexivity.
  destruct (h !! AlignmentResult.ayah r) as [[a | r' | items] |] eqn:Ha;
    repeat (progress (cbv beta iota; rewrite ?Hl, ?Ha)); try reflexivity.
  cbn [fst snd].
  destruct (round (AlignmentResult.start_time r) p); [| reflexivity].
  destruct (round (AlignmentResult.end_time r) p); [| reflexivity].
  destruct (round (AlignmentResult.duration r) p); [| reflexivity].
  repeat (progress (cbv beta iota; rewrite ?Hl, ?Ha)).
  destruct (round (AlignmentResult.similarity_score r) p); [| reflexivity].
  repeat (progress (cbv beta iota; rewrite ?Hl, ?Ha)).
  reflexivity.
Qed.

Lemma format_results_run h ll sid rec p :
  format_results threshold ll sid rec p h
  = (format_results_value threshold h ll sid rec p, h).
Proof.
  unfold format_results, format_results_value, load_list.
  unfold mbind at 1, M_bind at 1.
  destruct (h !! ll) as [[a | r | items] |]; try reflexivity.
  unfold mbind at 1, M_bind at 1.
  rewrite (mapM_run _
    (λ h l, d ← format_result_value threshold h l p; mret (VDict d))).
  - unfold mbind at 2, outcome_bind at 2.
    destruct (mapM _ items); [| reflexivity].
    destruct sid, rec; reflexivity.
  - intros x h'. unfold mbind at 1, M_bind. rewrite format_result_run.
    unfold mbind, outcome_bind. destruct (format_result_value _ _ _ _); reflexivity.
Qed.

End Reader.

(** * The returned dictionaries *)

Lemma json_type_dict d :
  json_type (VDict d) = true ↔ map_Forall (λ _ v, json_type v = true) d.
Proof.
  change (json_type (VDict d))
    with (map_fold (λ (_ : string) x acc, json_type x && acc) true d).
  apply (map_fold_weak_ind
    (λ b m, b = true ↔ map_Forall (λ _ v, json_type v = true) m)).
  - split; [intros _; apply map_Forall_empty | reflexivity].
  - intros i x m b Hi IH.
    rewrite map_Forall_insert, andb_true_iff, IH by exact Hi. reflexivity.
Qed.

Lemma json_type_list l :
  json_type (VList l) = true ↔ Forall (λ v, json_type v = true) l.
Proof.
  change (json_type (VList l)) with (forallb json_type l).
  rewrite forallb_forall, Forall_forall.
  split; intros H x Hx; apply H; by apply list_elem_of_In.
Qed.

Lemma py_dict_Forall (P : string → pyval → Prop) items :
  Forall (λ kv, P kv.1 kv.2) items → map_Forall P (py_dict items).
Proof.
  unfold py_dict.
  generalize (∅ : gmap string pyval) (map_Forall_empty P (M:=gmap string)).
  induction items as [| [k v] items IH]; intros d Hd Hitems; [exact Hd |].
  apply Forall_cons in Hitems as [Hkv Hitems]. cbn [foldl].
  apply IH; [| exact Hitems]. apply map_Forall_insert_2; assumption.
Qed.

Section Values.

Variable threshold : float.

Lemma canonical_dict_dom r a st en du sc :
  dom (canonical_dict threshold r a st en du sc) = canonical_keys.
Proof. reflexivity. Qed.

Lemma canonical_dict_json r a st en du sc :
  json_type (VDict (canonical_dict threshold r a st en du sc)) = true.
Proof.
  apply json_type_dict, py_dict_Forall. repeat constructor.
Qed.

Lemma results_dict_lookup sid rec ayahs :
  results_dict sid rec ayahs !! "surah_id" = VInt <$> sid ∧
  results_dict sid rec ayahs !! "reciter" = VStr <$> rec ∧
  results_dict sid rec ayahs !! "ayahs" = Some (VList ayahs).
Proof. destruct sid, rec; repeat apply conj; reflexivity. Qed.

Lemma results_dict_json sid rec ayahs :
  Forall (λ v, json_type v = true) ayahs →
  json_type (VDict (results_dict sid rec ayahs)) = true.
Proof.
  intros H. apply json_type_dict. unfold results_dict.
  assert (map_Forall (λ _ v, json_type v = true)
            (py_dict [("ayahs", VList ayahs)])) as Hayahs.
  { apply py_dict_Forall. repeat constructor. by apply json_type_list. }
  destruct sid, rec; cbn [from_option];
    repeat first [exact Hayahs | apply map_Forall_insert_2; [reflexivity |]].
Qed.

Lemma read_result_at h l r a : result_at h l r a → read_result h l = Ret (r, a).
Proof. intros [Hl Ha]. unfold read_result. rewrite Hl, Ha. reflexivity. Qed.

Lemma format_result_value_at h l r a p :
  result_at h l r a →
  format_result_value threshold h l p = rounded_dict threshold r a p.
Proof.
  intros H. unfold format_result_value. rewrite (read_result_at h l r a H).
  reflexivity.
Qed.

Lemma rounded_dict_Ret r a p d :
  rounded_dict threshold r a p = Ret d →
  ∃ st en du sc,
    round (AlignmentResult.start_time r) p = Ret st ∧
    round (AlignmentResult.end_time r) p = Ret en ∧
    round (AlignmentResult.duration r) p = Ret du ∧
    round (AlignmentResult.similarity_score r) p = Ret sc ∧
    d = canonical_dict threshold r a st en du sc.
Proof.
  unfold rounded_dict, mbind, outcome_bind.
  destruct (round (AlignmentResult.start_time r) p) as [st |]; [| discriminate].
  destruct (round (AlignmentResult.end_time r) p) as [en |]; [| discriminate].
  destruct (round (AlignmentResult.duration r) p) as [du |]; [| discriminate].
  destruct (round (AlignmentResult.similarity_score r) p) as [sc |];
    [| discriminate].
  intros [= <-]. by exists st, en, du, sc.
Qed.

Lemma rounded_dict_raises r a p e :
  rounded_dict threshold r a p = Raise e → e = OverflowError.
Proof.
  unfold rounded_dict, mbind, outcome_bind.
  destruct (round (AlignmentResult.start_time r) p) eqn:H1;
    [| intros [= <-]; by eapply round_raises].
  destruct (round (AlignmentResult.end_time r) p) eqn:H2;
    [| intros [= <-]; by eapply round_raises].
  destruct (round (AlignmentResult.duration r) p) eqn:H3;
    [| intros [= <-]; by eapply round_raises].
  destruct (round (AlignmentResult.similarity_score r) p) eqn:H4;
    [discriminate | intros [= <-]; by eapply round_raises].
Qed.

Lemma floats_valid_in_range r :
  floats_valid r = true →
  in_range (AlignmentResult.start_time r) ∧ in_range (AlignmentResult.end_time r) ∧
  in_range (AlignmentResult.duration r) ∧ in_range (AlignmentResult.similarity_score r).
Proof.
  unfold floats_valid. intros [[H1 H2]%andb_prop H3]%andb_prop.
  apply valid_in_range in H1, H2, H3. repeat apply conj; try assumption.
  by apply sub_in_range.
Qed.

Lemma rounded_dict_returns r a p :
  floats_valid r = true → 0 <= p ∨ p < NDIGITS_MIN →
  ∃ d, rounded_dict threshold r a p = Ret d.
Proof.
  intros (H1 & H2 & H3 & H4)%floats_valid_in_range Hp.
  assert (Hround : ∀ x, in_range x → ∃ y, round x p = Ret y).
  { intros x Hx. destruct Hp; [by apply round_returns | by apply round_returns_below]. }
  destruct (Hround _ H1) as [st Hst], (Hround _ H2) as [en Hen],
    (Hround _ H3) as [du Hdu], (Hround _ H4) as [sc Hsc].
  exists (canonical_dict threshold r a st en du sc).
  unfold rounded_dict. rewrite Hst, Hen, Hdu, Hsc. reflexivity.
Qed.

Lemma rounded_dict_same r1 r2 a p :
  same_fields r1 r2 → rounded_dict threshold r1 a p = rounded_dict threshold r2 a p.
Proof.
  destruct r1, r2. unfold same_fields, rounded_dict, canonical_dict,
    AlignmentResult.duration, AlignmentResult.is_high_confidence.
  cbn [AlignmentResult.start_time AlignmentResult.end_time
       AlignmentResult.transcribed_text AlignmentResult.similarity_score
       AlignmentResult.overlap_detected].
  intros (-> & -> & -> & -> & ->). reflexivity.
Qed.

Lemma format_result_returns h l p :
  well_typed h l → 0 <= p ∨ p < NDIGITS_MIN →
  ∃ d, format_result threshold l p h = (Ret d, h).
Proof.
  intros (r & a & Hat & Hv) Hp.
  destruct (rounded_dict_returns r a p Hv Hp) as [d Hd].
  exists d. rewrite format_result_run, (format_result_value_at h l r a p Hat), Hd.
  reflexivity.
Qed.

Lemma format_result_Ret h l r a p d h' :
  result_at h l r a → format_result threshold l p h = (Ret d, h') →
  h' = h ∧ rounded_dict threshold r a p = Ret d.
Proof.
  intros Hat. rewrite format_result_run, (format_result_value_at h l r a p Hat).
  intros [= -> ->]. done.
Qed.

(** What a returning call of [format_results] has computed. *)
Lemma format_results_Ret h ll sid rec p out h' :
  format_results threshold ll sid rec p h = (Ret out, h') →
  h' = h ∧ ∃ items ayahs,
    h !! ll = Some (OList items) ∧
    Forall2 (λ l v, ∃ d, format_result threshold l p h = (Ret d, h) ∧ v = VDict d)
      items ayahs ∧
    out = results_dict sid rec ayahs.
Proof.
  rewrite format_results_run. unfold format_results_value.
  destruct (h !! ll) as [[| | items] |]; try discriminate.
  unfold mbind at 1, outcome_bind at 1.
  destruct (mapM _ items) as [ayahs |] eqn:Hmap; [| discriminate].
  intros [= <- <-]. split; [reflexivity |]. exists items, ayahs.
  repeat apply conj; try reflexivity.
  apply mapM_Ret in Hmap. eapply Forall2_impl; [exact Hmap |].
  intros l v. cbv beta. rewrite format_result_run.
  unfold mbind, outcome_bind.
  destruct (format_result_value threshold h l p) as [d |]; [| discriminate].
  intros [= <-]. by exists d.
Qed.

Lemma format_results_returns h ll items sid rec p :
  results_at h ll items → 0 <= p ∨ p < NDIGITS_MIN →
  ∃ out, format_results threshold ll sid rec p h = (Ret out, h).
Proof.
  intros [Hll Hitems] Hp. rewrite format_results_run.
  unfold format_results_value. rewrite Hll.
  destruct (mapM_returns
    (λ l, d ← format_result_value threshold h l p; mret (VDict d)) items)
    as [ayahs Hmap].
  { eapply Forall_impl; [exact Hitems |]. intros l Hl. cbv beta.
    destruct (format_result_returns h l p Hl Hp) as [d Hd].
    rewrite format_result_run in Hd. injection Hd as ->. by exists (VDict d). }
  rewrite Hmap. eexists. reflexivity.
Qed.

End Values.

(** * The claims *)

Lemma eqb_refl x : x ≠ S754_nan → eqb x x = true.
Proof.
  unfold eqb, SFeqb. destruct x as [s | s | | s m e]; simpl; try done.
  - by destruct s.
  - intros _. rewrite Z.compare_refl.
    change (PosDef.Pos.compare_cont Eq m m) with (Pos.compare m m).
    rewrite Pos.compare_refl. by destruct s.
Qed.

Lemma leb_zero_not_nan x : leb zero x = true → x ≠ S754_nan.
Proof. by intros H ->. Qed.

Section Claims.

Variable threshold : float.

(** C1: [format_result] returns a dict whose keys are exactly the ten
    canonical keys; [ayah_number], [surah_id] and [reference_text] come from
    [result.ayah], [transcribed_text], [is_high_confidence] and
    [overlap_detected] are the attributes of the result, unchanged.  The
    call returns for every precision [0 <= p], the default included. *)
Theorem format_result_schema h l r a p :
  result_at h l r a → floats_valid r = true →
  (0 <= p → ∃ d, format_result threshold l p h = (Ret d, h)) ∧
  ∀ d h', format_result threshold l p h = (Ret d, h') →
    dom d = canonical_keys ∧
    d !! "ayah_number" = Some (VInt (Ayah.ayah_number a)) ∧
    d !! "surah_id" = Some (VInt (Ayah.surah_id a)) ∧
    d !! "transcribed_text" = Some (VStr (AlignmentResult.transcribed_text r)) ∧
    d !! "reference_text" = Some (VStr (Ayah.text a)) ∧
    d !! "is_high_confidence"
      = Some (VBool (AlignmentResult.is_high_confidence threshold r)) ∧
    d !! "overlap_detected" = Some (VBool (AlignmentResult.overlap_detected r)).
Proof.
  intros Hat Hv. split.
  - intros Hp. apply format_result_returns; [by exists r, a | by left].
  - intros d h' Hrun.
    apply (format_result_Ret _ h l r a) in Hrun as [-> Hd]; [| exact Hat].
    apply rounded_dict_Ret in Hd as (st & en & du & sc & _ & _ & _ & _ & ->).
    repeat apply conj; reflexivity.
Qed.

(** C2: in the dict [format_result] returns, the values under [start_time],
    [end_time], [duration] and [similarity_score] are
    [round(attribute, precision)] and the six other values are the
    attributes themselves; a call without [precision] uses 3; and
    [format_results], called with or without [precision] on a list of
    well-typed results, returns (for a precision [>= 0]) a dict whose
    [ayahs] are, element by element, the results with exactly these four
    values rounded to the precision it received (3 when it received none). *)
Theorem format_rounds_floats h l r a p :
  result_at h l r a → floats_valid r = true →
  (0 <= p → ∃ d, format_result threshold l p h = (Ret d, h)) ∧
  (∀ d h', format_result threshold l p h = (Ret d, h') →
    (∃ st en du sc,
      round (AlignmentResult.start_time r) p = Ret st ∧
      round (AlignmentResult.end_time r) p = Ret en ∧
      round (AlignmentResult.duration r) p = Ret du ∧
      round (AlignmentResult.similarity_score r) p = Ret sc ∧
      d !! "start_time" = Some (VFloat st) ∧
      d !! "end_time" = Some (VFloat en) ∧
      d !! "duration" = Some (VFloat du) ∧
      d !! "similarity_score" = Some (VFloat sc)) ∧
    d !! "ayah_number" = Some (VInt (Ayah.ayah_number a)) ∧
    d !! "surah_id" = Some (VInt (Ayah.surah_id a)) ∧
    d !! "transcribed_text" = Some (VStr (AlignmentResult.transcribed_text r)) ∧
    d !! "reference_text" = Some (VStr (Ayah.text a)) ∧
    d !! "is_high_confidence"
      = Some (VBool (AlignmentResult.is_high_confidence threshold r)) ∧
    d !! "overlap_detected" = Some (VBool (AlignmentResult.overlap_detected r))) ∧
  call_format_result threshold l None = format_result threshold l 3 ∧
  call_format_result threshold l (Some p) = format_result threshold l p ∧
  (∀ ll sid rec,
    call_format_results threshold ll sid rec None
      = format_results threshold ll sid rec 3 ∧
    call_format_results threshold ll sid rec (Some p)
      = format_results threshold ll sid rec p) ∧
  (∀ ll sid rec out h', format_results threshold ll sid rec p h = (Ret out, h') →
    ∃ items ayahs,
      h !! ll = Some (OList items) ∧ out !! "ayahs" = Some (VList ayahs) ∧
      Forall2 (λ l v, ∃ d, format_result threshold l p h = (Ret d, h) ∧ v = VDict d)
        items ayahs) ∧
  ∀ ll items sid rec (precision : option Z),
    results_at h ll items →
    (0 <= default default_precision precision →
       ∃ out, call_format_results threshold ll sid rec precision h = (Ret out, h)) ∧
    ∀ out h', call_format_results threshold ll sid rec precision h = (Ret out, h') →
      ∃ ayahs,
        out !! "ayahs" = Some (VList ayahs) ∧
        Forall2 (λ l' v, ∃ r' a' d st en du sc,
          result_at h l' r' a' ∧ v = VDict d ∧
          round (AlignmentResult.start_time r')
                (default default_precision precision) = Ret st ∧
          round (AlignmentResult.end_time r')
                (default default_precision precision) = Ret en ∧
          round (AlignmentResult.duration r')
                (default default_precision precision) = Ret du ∧
          round (AlignmentResult.similarity_score r')
                (default default_precision precision) = Ret sc ∧
          d !! "start_time" = Some (VFloat st) ∧
          d !! "end_time" = Some (VFloat en) ∧
          d !! "duration" = Some (VFloat du) ∧
          d !! "similarity_score" = Some (VFloat sc) ∧
          d !! "ayah_number" = Some (VInt (Ayah.ayah_number a')) ∧
          d !! "surah_id" = Some (VInt (Ayah.surah_id a')) ∧
          d !! "transcribed_text"
            = Some (VStr (AlignmentResult.transcribed_text r')) ∧
          d !! "reference_text" = Some (VStr (Ayah.text a')) ∧
          d !! "is_high_confidence"
            = Some (VBool (AlignmentResult.is_high_confidence threshold r')) ∧
          d !! "overlap_detected"
            = Some (VBool (AlignmentResult.overlap_detected r')))
          items ayahs.
Proof.
  intros Hat Hv. repeat apply conj; try reflexivity.
  - intros Hp. apply format_result_returns; [by exists r, a | by left].
  - intros d h' Hrun.
    apply (format_result_Ret _ h l r a) in Hrun as [-> Hd]; [| exact Hat].
    apply rounded_dict_Ret in Hd as (st & en & du & sc & Hst & Hen & Hdu & Hsc & ->).
    repeat apply conj; try reflexivity.
    exists st, en, du, sc. repeat apply conj; (assumption || reflexivity).
  - intros ll sid rec. split; reflexivity.
  - intros ll sid rec out h' Hrun.
    apply format_results_Ret in Hrun as (-> & items & ayahs & Hll & Hall & ->).
    exists items, ayahs. repeat apply conj; try assumption.
    apply results_dict_lookup.
  - intros ll items sid rec precision [Hll Hitems]. unfold call_format_results.
    generalize (default default_precision precision). intros q. split.
    + intros Hq. eapply format_results_returns; [by split | by left].
    + intros out h' Hrun.
      apply format_results_Ret in Hrun as (-> & items' & ayahs & Hll' & Hall & ->).
      assert (items' = items) as -> by congruence.
      exists ayahs. split; [apply results_dict_lookup |]. clear Hll Hll'.
      induction Hall as [| l' v items ayahs (d & Hd & ->) _ IH]; constructor.
      * apply Forall_cons in Hitems as [(r' & a' & Hat' & _) _].
        apply (format_result_Ret _ h l' r' a') in Hd as [_ Hd]; [| exact Hat'].
        apply rounded_dict_Ret in Hd
          as (st & en & du & sc & Hst & Hen & Hdu & Hsc & ->).
        exists r', a', (canonical_dict threshold r' a' st en du sc), st, en, du, sc.
        split; [exact Hat' |]. repeat apply conj; (assumption || reflexivity).
      * apply IH. by apply Forall_cons in Hitems as [_ ?].
Qed.

(** C3, as amended: for a result with a finite [start_time <= end_time],
    [duration == end_time - start_time] and [duration >= 0]; in the dict
    [format_result] returns, the value under [duration] is
    [round(end_time - start_time, precision)], the rounded difference of the
    unrounded times, and it is non-negative. *)
Theorem duration_is_rounded_difference h l r a p :
  result_at h l r a → floats_valid r = true →
  is_finite (AlignmentResult.start_time r) = true →
  leb (AlignmentResult.start_time r) (AlignmentResult.end_time r) = true →
  eqb (AlignmentResult.duration r)
      (sub (AlignmentResult.end_time r) (AlignmentResult.start_time r)) = true ∧
  leb zero (AlignmentResult.duration r) = true ∧
  (0 <= p → ∃ d, format_result threshold l p h = (Ret d, h)) ∧
  ∀ d h', format_result threshold l p h = (Ret d, h') →
    ∃ du,
      round (sub (AlignmentResult.end_time r) (AlignmentResult.start_time r)) p
        = Ret du ∧
      d !! "duration" = Some (VFloat du) ∧ leb zero du = true.
Proof.
  intros Hat Hv Hfin Hle.
  assert (Hnonneg : leb zero (AlignmentResult.duration r) = true).
  { pose proof Hv as [[H1 H2]%andb_prop _]%andb_prop. by apply sub_nonneg. }
  repeat apply conj.
  - apply eqb_refl, leb_zero_not_nan, Hnonneg.
  - exact Hnonneg.
  - intros Hp. apply format_result_returns; [by exists r, a | by left].
  - intros d h' Hrun.
    apply (format_result_Ret _ h l r a) in Hrun as [-> Hd]; [| exact Hat].
    apply rounded_dict_Ret in Hd as (st & en & du & sc & _ & _ & Hdu & _ & ->).
    exists du. repeat apply conj; [exact Hdu | reflexivity |].
    by eapply round_nonneg.
Qed.

(** C4: the dict [format_results] returns has the key [surah_id], with the
    value passed, exactly when [surah_id] is not [None], the key [reciter],
    with the value passed, exactly when [reciter] is not [None], and always
    the key [ayahs]. *)
Theorem format_results_optional_keys h ll items sid rec p :
  results_at h ll items →
  (0 <= p → ∃ out, format_results threshold ll sid rec p h = (Ret out, h)) ∧
  ∀ out h', format_results threshold ll sid rec p h = (Ret out, h') →
    out !! "surah_id" = VInt <$> sid ∧
    (is_Some (out !! "surah_id") ↔ sid ≠ None) ∧
    out !! "reciter" = VStr <$> rec ∧
    (is_Some (out !! "reciter") ↔ rec ≠ None) ∧
    is_Some (out !! "ayahs").
Proof.
  intros Hres. split.
  - intros Hp. eapply format_results_returns; [exact Hres | by left].
  - intros out h' Hrun.
    apply format_results_Ret in Hrun as (-> & items' & ayahs & _ & _ & ->).
    destruct (results_dict_lookup sid rec ayahs) as (-> & -> & ->).
    split; [reflexivity |]. split; [by rewrite fmap_is_Some, not_eq_None_Some |].
    split; [reflexivity |]. split; [by rewrite fmap_is_Some, not_eq_None_Some |].
    by eexists.
Qed.

(** C5: the list under [ayahs] has the length of the input list, its i-th
    entry is the dict [format_result] returns for the i-th input, and the
    [ayah_number]s of the entries are those of the inputs, in order. *)
Theorem format_results_ayahs h ll items sid rec p :
  results_at h ll items →
  (0 <= p → ∃ out, format_results threshold ll sid rec p h = (Ret out, h)) ∧
  ∀ out h', format_results threshold ll sid rec p h = (Ret out, h') →
    ∃ ayahs,
      out !! "ayahs" = Some (VList ayahs) ∧
      length ayahs = length items ∧
      (∀ (i : nat) l, items !! i = Some l →
         ∃ d, format_result threshold l p h = (Ret d, h) ∧
              ayahs !! i = Some (VDict d)) ∧
      ayah_number_of <$> ayahs = input_ayah_number h <$> items.
Proof.
  intros [Hll Hitems]. split.
  - intros Hp. eapply format_results_returns; [by split | by left].
  - intros out h' Hrun.
    apply format_results_Ret in Hrun as (-> & items' & ayahs & Hll' & Hall & ->).
    assert (items' = items) as -> by congruence.
    exists ayahs. repeat apply conj.
    + apply results_dict_lookup.
    + symmetry. by eapply Forall2_length.
    + intros i l Hi.
      destruct (Forall2_lookup_l _ _ _ _ _ Hall Hi) as (v & Hv & d & Hd & ->).
      by exists d.
    + clear Hll Hll'. induction Hall as [| l v items ayahs (d & Hd & ->) _ IH];
        [reflexivity |].
      apply Forall_cons in Hitems as [(r & a & Hat & _) Hitems].
      cbn [fmap list_fmap]. f_equal; [| by apply IH].
      unfold input_ayah_number. rewrite (read_result_at h l r a Hat).
      apply (format_result_Ret _ h l r a) in Hd as [_ Hd]; [| exact Hat].
      apply rounded_dict_Ret in Hd as (st & en & du & sc & _ & _ & _ & _ & ->).
      reflexivity.
Qed.

(** C6: the outcome of [format_result] and of [format_results] is a function
    of the attribute values of the results and their ayahs and of the
    arguments [surah_id], [reciter] and [precision] alone: two calls, in any
    two stores, on results with equal attribute values have equal outcomes. *)
Theorem formatter_deterministic h1 h2 l1 l2 ll1 ll2 items1 items2 sid rec p :
  same_result h1 h2 l1 l2 →
  h1 !! ll1 = Some (OList items1) → h2 !! ll2 = Some (OList items2) →
  Forall2 (same_result h1 h2) items1 items2 →
  (format_result threshold l1 p h1).1 = (format_result threshold l2 p h2).1 ∧
  (format_results threshold ll1 sid rec p h1).1
    = (format_results threshold ll2 sid rec p h2).1.
Proof.
  assert (Hone : ∀ l1 l2, same_result h1 h2 l1 l2 →
    format_result_value threshold h1 l1 p = format_result_value threshold h2 l2 p).
  { intros x1 x2 (r1 & r2 & a & Hat1 & Hat2 & Hsame).
    rewrite (format_result_value_at _ h1 x1 r1 a p Hat1),
      (format_result_value_at _ h2 x2 r2 a p Hat2).
    by apply rounded_dict_same. }
  intros Hl Hll1 Hll2 Hall. rewrite !format_result_run, !format_results_run.
  cbn [fst]. split; [by apply Hone |].
  unfold format_results_value. rewrite Hll1, Hll2.
  assert (mapM (λ l, d ← format_result_value threshold h1 l p; mret (VDict d)) items1
          = mapM (λ l, d ← format_result_value threshold h2 l p; mret (VDict d)) items2)
    as ->; [| reflexivity].
  clear Hll1 Hll2. induction Hall as [| x1 x2 items1 items2 Hx _ IH]; [reflexivity |].
  rewrite !mapM_cons_outcome, IH, (Hone x1 x2 Hx). reflexivity.
Qed.

(** C7: every value in the dict [format_results] returns, at any depth, is
    an int, a float, a str, a bool, a list or a dict. *)
Theorem format_results_json_types h ll items sid rec p :
  results_at h ll items →
  (0 <= p → ∃ out, format_results threshold ll sid rec p h = (Ret out, h)) ∧
  ∀ out h', format_results threshold ll sid rec p h = (Ret out, h') →
    json_type (VDict out) = true.
Proof.
  intros [Hll Hitems]. split.
  - intros Hp. eapply format_results_returns; [by split | by left].
  - intros out h' Hrun.
    apply format_results_Ret in Hrun as (-> & items' & ayahs & Hll' & Hall & ->).
    assert (items' = items) as -> by congruence.
    apply results_dict_json. clear Hll Hll'.
    induction Hall as [| l v items ayahs (d & Hd & ->) _ IH]; constructor.
    + apply Forall_cons in Hitems as [(r & a & Hat & _) _].
      apply (format_result_Ret _ h l r a) in Hd as [_ Hd]; [| exact Hat].
      apply rounded_dict_Ret in Hd as (st & en & du & sc & _ & _ & _ & _ & ->).
      apply canonical_dict_json.
    + apply IH. by apply Forall_cons in Hitems as [_ ?].
Qed.

(** C8: on the empty list, without [surah_id] and [reciter], [format_results]
    returns [{"ayahs": []}], whatever the precision, given or not. *)
Theorem format_results_empty h ll p :
  h !! ll = Some (OList []) →
  call_format_results threshold ll None None p h
  = (Ret {["ayahs" := VList []]}, h).
Proof.
  intros Hll. unfold call_format_results.
  rewrite format_results_run. unfold format_results_value. rewrite Hll.
  reflexivity.
Qed.

(** C9: a call of [format_result] or [format_results] leaves the store as
    it found it: every result, every ayah and every list is unchanged,
    whether the call returns or raises. *)
Theorem formatter_leaves_store_unchanged h l ll sid rec p :
  (format_result threshold l p h).2 = h ∧
  (format_results threshold ll sid rec p h).2 = h.
Proof. rewrite format_result_run, format_results_run. done. Qed.


End Claims.

(** * The claims on the sample objects *)

Lemma sample_result1_at :
  result_at Sample.store 3%positive Sample.result1 Sample.ayah1.
Proof. split; reflexivity. Qed.


Lemma sample_floats_valid :
  floats_valid Sample.result1 = true ∧ floats_valid Sample.result2 = true ∧
  floats_valid Sample.result3 = true.
Proof. repeat apply conj; vm_compute; reflexivity. Qed.

Lemma sample_results_at :
  results_at Sample.store 6%positive [3; 4]%positive.
Proof.
  split; [reflexivity |]. repeat constructor.
  - exists Sample.result1, Sample.ayah1.
    split; [split; reflexivity | apply sample_floats_valid].
  - exists Sample.result2, Sample.ayah2.
    split; [split; reflexivity | apply sample_floats_valid].
Qed.

Lemma sample_same_results :
  same_result Sample.store Sample.store2 3%positive 13%positive ∧
  same_result Sample.store Sample.store2 4%positive 14%positive.
Proof.
  split.
  - exists Sample.result1, (Sample.moved Sample.result1 11%positive), Sample.ayah1.
    repeat apply conj; reflexivity.
  - exists Sample.result2, (Sample.moved Sample.result2 12%positive), Sample.ayah2.
    repeat apply conj; reflexivity.
Qed.

Lemma sample_result1_literals :
  AlignmentResult.start_time Sample.result1 = decimal false 56789 (-4) ∧
  AlignmentResult.similarity_score Sample.result1 = decimal false 9567 (-4).
Proof. split; vm_compute; reflexivity. Qed.

(** C1 on the first fixture, with the default precision. *)
Lemma format_result_schema_witness :
  result_at Sample.store 3%positive Sample.result1 Sample.ayah1 ∧
  floats_valid Sample.result1 = true ∧
  ∃ d, format_result Sample.threshold 3%positive 3 Sample.store = (Ret d, Sample.store) ∧
       dom d = canonical_keys ∧
       d !! "reference_text" = Some (VStr "bismi allahi alrrahmani alrraheemi") ∧
       d !! "is_high_confidence" = Some (VBool true).
Proof.
  pose proof sample_result1_at as Hat.
  pose proof (proj1 sample_floats_valid) as Hv.
  destruct (format_result_schema Sample.threshold _ _ _ _ 3 Hat Hv) as [Hret Hd].
  destruct (Hret ltac:(done)) as [d Hrun].
  destruct (Hd d _ Hrun) as (Hdom & _ & _ & _ & Href & Hconf & _).
  split; [exact Hat |]. split; [exact Hv |].
  exists d. repeat apply conj; assumption.
Defined.

(** C2 on the fixtures: [format_result] on the first one gives
    [start_time = round(5.6789, 3) = 5.679], and [format_results] on the
    list of the two, called without [precision], returns two entries, the
    first with [start_time = 5.679] and [similarity_score = 0.957]. *)
Lemma format_rounds_floats_witness :
  result_at Sample.store 3%positive Sample.result1 Sample.ayah1 ∧
  floats_valid Sample.result1 = true ∧
  results_at Sample.store 6%positive [3; 4]%positive ∧
  (∃ d, format_result Sample.threshold 3%positive 3 Sample.store = (Ret d, Sample.store) ∧
        d !! "start_time" = Some (VFloat (decimal false 5679 (-3)))) ∧
  ∃ out d1 v2,
    call_format_results Sample.threshold 6%positive None None None Sample.store
      = (Ret out, Sample.store) ∧
    out !! "ayahs" = Some (VList [VDict d1; v2]) ∧
    d1 !! "start_time" = Some (VFloat (decimal false 5679 (-3))) ∧
    d1 !! "similarity_score" = Some (VFloat (decimal false 957 (-3))).
Proof.
  pose proof sample_result1_at as Hat.
  pose proof (proj1 sample_floats_valid) as Hv.
  pose proof sample_results_at as Hres.
  destruct (format_rounds_floats Sample.threshold _ _ _ _ 3 Hat Hv)
    as (Hret & Hd & _ & _ & _ & _ & Hlist).
  split; [exact Hat |]. split; [exact Hv |]. split; [exact Hres |]. split.
  - destruct (Hret ltac:(done)) as [d Hrun].
    destruct (Hd d _ Hrun) as ((st & en & du & sc & Hst & _ & _ & _ & Hlook & _) & _).
    exists d. split; [exact Hrun |].
    rewrite Hlook.
    rewrite (proj1 sample_result1_literals), round_5_6789_3 in Hst. apply Ret_inj in Hst. rewrite <- Hst.
    reflexivity.
  - destruct (Hlist 6%positive [3; 4]%positive None None None Hres)
      as [Hret' Hout].
    destruct (Hret' ltac:(done)) as [out Hrun].
    destruct (Hout out _ Hrun) as (ayahs & Hayahs & Hall).
    apply Forall2_cons_inv_l in Hall as (v1 & ayahs1 & Hv1 & Hall & ->).
    apply Forall2_cons_inv_l in Hall as (v2 & ayahs2 & _ & Hall & ->).
    apply Forall2_nil_inv_l in Hall as ->.
    destruct Hv1 as (r' & a' & d1 & st & en & du & sc & [Hl' _] & -> &
                     Hst & _ & _ & Hsc & Hlst & _ & _ & Hlsc & _).
    change (Sample.store !! 3%positive) with (Some (OResult Sample.result1)) in Hl'.
    apply (inj Some) in Hl'. injection Hl' as <-.
    exists out, d1, v2. split; [exact Hrun |]. split; [exact Hayahs |].
    rewrite Hlst, Hlsc.
    change (default default_precision None) with 3 in Hst, Hsc.
    rewrite (proj1 sample_result1_literals), round_5_6789_3 in Hst.
    rewrite (proj2 sample_result1_literals), round_0_9567_3 in Hsc.
    apply Ret_inj in Hst, Hsc. rewrite <- Hst, <- Hsc. split; reflexivity.
Defined.

(** C3, as amended, on the first fixture. *)
Lemma duration_is_rounded_difference_witness :
  result_at Sample.store 3%positive Sample.result1 Sample.ayah1 ∧
  floats_valid Sample.result1 = true ∧
  is_finite (AlignmentResult.start_time Sample.result1) = true ∧
  leb (AlignmentResult.start_time Sample.result1)
      (AlignmentResult.end_time Sample.result1) = true ∧
  leb zero (AlignmentResult.duration Sample.result1) = true ∧
  ∃ d du, format_result Sample.threshold 3%positive 3 Sample.store = (Ret d, Sample.store) ∧
          d !! "duration" = Some (VFloat du) ∧ leb zero du = true.
Proof.
  pose proof sample_result1_at as Hat.
  pose proof (proj1 sample_floats_valid) as Hv.
  assert (Hfin : is_finite (AlignmentResult.start_time Sample.result1) = true)
    by (vm_compute; reflexivity).
  assert (Hle : leb (AlignmentResult.start_time Sample.result1)
                    (AlignmentResult.end_time Sample.result1) = true)
    by (vm_compute; reflexivity).
  destruct (duration_is_rounded_difference Sample.threshold _ _ _ _ 3 Hat Hv Hfin Hle)
    as (_ & Hnonneg & Hret & Hd).
  destruct (Hret ltac:(done)) as [d Hrun].
  destruct (Hd d _ Hrun) as (du & _ & Hlook & Hdu).
  split; [exact Hat |]. repeat (split; [assumption |]).
  exists d, du. repeat apply conj; assumption.
Defined.

(** C3 refuted on the fixture of the unit tests: with [start_time=5.6789],
    [end_time=9.1234] and the default precision, the dict holds
    [start_time=5.679], [end_time=9.123] and [duration=3.445], but
    [9.123 - 5.679 == 3.443999999999999]. *)
Lemma duration_differs_from_rounded_times :
  floats_valid Sample.result1 = true ∧
  leb (AlignmentResult.start_time Sample.result1)
      (AlignmentResult.end_time Sample.result1) = true ∧
  ∃ d, format_result Sample.threshold 3%positive 3 Sample.store = (Ret d, Sample.store) ∧
       float_at d "start_time" = Some (decimal false 5679 (-3)) ∧
       float_at d "end_time" = Some (decimal false 9123 (-3)) ∧
       float_at d "duration" = Some (decimal false 3445 (-3)) ∧
       sub (decimal false 9123 (-3)) (decimal false 5679 (-3))
         = decimal false 3443999999999999 (-15) ∧
       duration_consistent d = false.
Proof.
  split; [vm_compute; reflexivity |]. split; [vm_compute; reflexivity |].
  exists (canonical_dict Sample.threshold Sample.result1 Sample.ayah1
            (decimal false 5679 (-3)) (decimal false 9123 (-3))
            (decimal false 3445 (-3)) (decimal false 957 (-3))).
  repeat apply conj; vm_compute; reflexivity.
Qed.

(** C4 on the two fixtures, with [surah_id=1] and a reciter. *)
Lemma format_results_optional_keys_witness :
  results_at Sample.store 6%positive [3; 4]%positive ∧
  ∃ out, format_results Sample.threshold 6%positive (Some 1) (Some "Test Reciter") 3
           Sample.store = (Ret out, Sample.store) ∧
         out !! "surah_id" = Some (VInt 1) ∧
         out !! "reciter" = Some (VStr "Test Reciter") ∧
         is_Some (out !! "ayahs").
Proof.
  pose proof sample_results_at as Hres.
  destruct (format_results_optional_keys Sample.threshold _ _ _
              (Some 1) (Some "Test Reciter") 3 Hres) as [Hret Hout].
  destruct (Hret ltac:(done)) as [out Hrun].
  destruct (Hout out _ Hrun) as (Hsid & _ & Hrec & _ & Hayahs).
  split; [exact Hres |]. exists out. repeat apply conj; assumption.
Defined.

(** C5 on the two fixtures: two entries, ayah numbers 1 and 2. *)
Lemma format_results_ayahs_witness :
  results_at Sample.store 6%positive [3; 4]%positive ∧
  ∃ out ayahs, format_results Sample.threshold 6%positive None None 3 Sample.store
                 = (Ret out, Sample.store) ∧
               out !! "ayahs" = Some (VList ayahs) ∧ length ayahs = 2%nat ∧
               ayah_number_of <$> ayahs = [Some (VInt 1); Some (VInt 2)].
Proof.
  pose proof sample_results_at as Hres.
  destruct (format_results_ayahs Sample.threshold _ _ _ None None 3 Hres)
    as [Hret Hout].
  destruct (Hret ltac:(done)) as [out Hrun].
  destruct (Hout out _ Hrun) as (ayahs & Hlook & Hlen & _ & Hnum).
  split; [exact Hres |]. exists out, ayahs. repeat apply conj; assumption.
Defined.

(** C6 on the two sample stores, which hold the same results and ayahs at
    different places. *)
Lemma formatter_deterministic_witness :
  same_result Sample.store Sample.store2 3%positive 13%positive ∧
  Sample.store !! 6%positive = Some (OList [3; 4]%positive) ∧
  Sample.store2 !! 16%positive = Some (OList [13; 14]%positive) ∧
  Forall2 (same_result Sample.store Sample.store2) [3; 4]%positive [13; 14]%positive ∧
  (format_result Sample.threshold 3%positive 3 Sample.store).1
    = (format_result Sample.threshold 13%positive 3 Sample.store2).1 ∧
  (format_results Sample.threshold 6%positive (Some 1) None 3 Sample.store).1
    = (format_results Sample.threshold 16%positive (Some 1) None 3 Sample.store2).1.
Proof.
  destruct sample_same_results as [H1 H2].
  assert (Hall : Forall2 (same_result Sample.store Sample.store2)
                   [3; 4]%positive [13; 14]%positive) by (repeat constructor; assumption).
  split; [exact H1 |]. split; [reflexivity |]. split; [reflexivity |].
  split; [exact Hall |].
  exact (formatter_deterministic Sample.threshold Sample.store Sample.store2
           3%positive 13%positive 6%positive 16%positive
           [3; 4]%positive [13; 14]%positive (Some 1) None 3 H1 eq_refl eq_refl Hall).
Defined.

(** C7 on the two fixtures. *)
Lemma format_results_json_types_witness :
  results_at Sample.store 6%positive [3; 4]%positive ∧
  ∃ out, format_results Sample.threshold 6%positive (Some 1) (Some "Test Reciter") 3
           Sample.store = (Ret out, Sample.store) ∧
         json_type (VDict out) = true.
Proof.
  pose proof sample_results_at as Hres.
  destruct (format_results_json_types Sample.threshold _ _ _
              (Some 1) (Some "Test Reciter") 3 Hres) as [Hret Hout].
  destruct (Hret ltac:(done)) as [out Hrun].
  split; [exact Hres |]. exists out. split; [exact Hrun | exact (Hout out _ Hrun)].
Defined.

(** C8 on the empty list of the sample store, all keyword arguments left
    out. *)
Lemma format_results_empty_witness :
  Sample.store !! 7%positive = Some (OList []) ∧
  call_format_results Sample.threshold 7%positive None None None Sample.store
  = (Ret {["ayahs" := VList []]}, Sample.store).
Proof.
  split; [reflexivity |].
  apply (format_results_empty Sample.threshold Sample.store 7%positive None eq_refl).
Defined.



(** * More on the float model *)

(** ** Rounding is monotone *)

Lemma div_le_cross a b a' b' :
  0 < b → 0 < b' → a * b' <= a' * b → a / b <= a' / b'.
Proof.
  intros Hb Hb' Hle. apply Z.div_le_lower_bound; [exact Hb' |].
  pose proof (Z.mul_div_le a b Hb). nia.
Qed.

Lemma round_half_even_le_int a b n :
  0 < b → a <= b * n → round_half_even a b <= n.
Proof.
  intros Hb Hle.
  pose proof (Z.div_mod a b ltac:(lia)) as Hdm.
  pose proof (Z.mod_pos_bound a b Hb) as Hr.
  destruct (round_half_even_cases a b) as [-> | [-> Hhalf]]; nia.
Qed.

Lemma round_half_even_ge_int a b n :
  0 < b → b * n <= a → n <= round_half_even a b.
Proof.
  intros Hb Hle.
  pose proof (Z.div_mod a b ltac:(lia)) as Hdm.
  pose proof (Z.mod_pos_bound a b Hb) as Hr.
  destruct (round_half_even_cases a b) as [-> | [-> Hhalf]]; nia.
Qed.

Lemma round_half_even_exact b n : 0 < b → round_half_even (b * n) b = n.
Proof.
  intros Hb. apply Z.le_antisymm.
  - apply round_half_even_le_int; lia.
  - apply round_half_even_ge_int; lia.
Qed.

Lemma round_half_even_mono a b a' b' :
  0 < b → 0 < b' → a * b' <= a' * b →
  round_half_even a b <= round_half_even a' b'.
Proof.
  intros Hb Hb' Hle.
  pose proof (div_le_cross a b a' b' Hb Hb' Hle) as Hq.
  pose proof (Z.div_mod a b ltac:(lia)) as Hdm.
  pose proof (Z.mod_pos_bound a b Hb) as Hr.
  pose proof (Z.div_mod a' b' ltac:(lia)) as Hdm'.
  pose proof (Z.mod_pos_bound a' b' Hb') as Hr'.
  unfold round_half_even.
  destruct (Z.eq_dec (a / b) (a' / b')) as [Heq | Hne].
  - rewrite <- Heq in *.
    assert (Hrr : (a mod b) * b' <= (a' mod b') * b) by nia.
    destruct (Z.compare_spec (2 * (a mod b)) b) as [H1 | H1 | H1];
      destruct (Z.compare_spec (2 * (a' mod b')) b') as [H2 | H2 | H2];
      try destruct (Z.even (a / b)); try lia; nia.
  - assert (a / b + 1 <= a' / b') by lia.
    destruct (2 * (a mod b) ?= b), (2 * (a' mod b') ?= b');
      try destruct (Z.even (a / b)); try destruct (Z.even (a' / b')); lia.
Qed.

Lemma leb_finite m e m' e' :
  0 < m → 0 < m' → e < e' ∨ (e = e' ∧ m <= m') →
  leb (S754_finite false (Z.to_pos m) e) (S754_finite false (Z.to_pos m') e') = true.
Proof.
  intros Hm Hm' Hcase. unfold leb, SFleb, SFcompare.
  destruct Hcase as [Hlt | [-> Hle]].
  - apply Z.compare_lt_iff in Hlt. rewrite Hlt. reflexivity.
  - rewrite Z.compare_refl.
    change (PosDef.Pos.compare_cont Eq ?p ?q) with (Pos.compare p q).
    destruct (Pos.compare_spec (Z.to_pos m) (Z.to_pos m')); try reflexivity. lia.
Qed.

Lemma leb_zero_nonneg s x : has_sign false x → leb (S754_zero s) x = true.
Proof. destruct x as [s' | s' | | s' m e]; simpl; try done; by intros ->. Qed.

Lemma leb_infinity x s : has_sign s x → leb x (S754_infinity false) = true.
Proof. destruct x as [s' | s' | | s' m e]; simpl; try done; by intros ->; destruct s. Qed.

(** The shift and the mantissa [nearest] computes, and its result in terms
    of them. *)
Lemma nearest_cases s a b :
  0 <= a → 0 < b →
  ∃ sh m,
    sh = Z.max 0 (Z.log2 (a * 2 ^ 1074 / b) + 1 - prec) ∧
    m = round_half_even (a * 2 ^ 1074) (b * 2 ^ sh) ∧
    0 <= m <= 2 ^ prec ∧ (0 < sh → 2 ^ (prec - 1) <= m) ∧
    nearest s a b =
      if m =? 2 ^ prec then
        if emax - prec <? sh + 1 - 1074 then S754_infinity s
        else S754_finite s (Z.to_pos (2 ^ (prec - 1))) (sh + 1 - 1074)
      else if m =? 0 then S754_zero s
      else if emax - prec <? sh - 1074 then S754_infinity s
      else S754_finite s (Z.to_pos m) (sh - 1074).
Proof.
  intros Ha Hb. eexists _, _. split; [reflexivity |]. split; [reflexivity |].
  set (num := a * 2 ^ 1074).
  set (t := num / b).
  set (sh := Z.max 0 (Z.log2 t + 1 - prec)).
  assert (Hnum : 0 <= num) by (unfold num; lia).
  assert (Ht : 0 <= t) by (apply Z.div_pos; lia).
  assert (Hsh : 0 <= sh) by (unfold sh; lia).
  assert (Hp : 0 < 2 ^ sh) by (apply Z.pow_pos_nonneg; lia).
  assert (Hdm : num = b * t + num mod b) by (apply Z.div_mod; lia).
  pose proof (Z.mod_pos_bound num b Hb) as Hr.
  assert (Hup : t < 2 ^ (sh + prec)).
  { destruct (Z.eq_dec t 0) as [-> | Hne].
    - apply Z.pow_pos_nonneg; unfold prec; lia.
    - pose proof (Z.log2_spec t ltac:(lia)) as [_ Hlog].
      eapply Z.lt_le_trans; [exact Hlog |].
      apply Z.pow_le_mono_r; unfold sh, prec; lia. }
  rewrite Z.pow_add_r in Hup by (unfold prec; lia).
  repeat apply conj.
  - apply round_half_even_nonneg; nia.
  - apply round_half_even_le_int; nia.
  - intros Hpos.
    assert (Hsh' : sh = Z.log2 t + 1 - prec) by (unfold sh in *; lia).
    assert (Htpos : 0 < t).
    { destruct (Z.eq_dec t 0) as [Heq | Hne]; [| lia].
      rewrite Heq in Hsh'. unfold prec in Hsh'. simpl in Hsh'. lia. }
    pose proof (Z.log2_spec t Htpos) as [Hlog _].
    replace (Z.log2 t) with (sh + (prec - 1)) in Hlog by lia.
    rewrite Z.pow_add_r in Hlog by (unfold prec; lia).
    apply round_half_even_ge_int; nia.
  - unfold nearest. fold num. fold t. fold sh.
    destruct (round_half_even num (b * 2 ^ sh) =? 2 ^ prec); reflexivity.
Qed.

Lemma nearest_mono a b a' b' :
  0 <= a → 0 < b → 0 < b' → a * b' <= a' * b →
  leb (nearest false a b) (nearest false a' b') = true.
Proof.
  intros Ha Hb Hb' Hle.
  assert (Ha' : 0 <= a') by nia.
  destruct (nearest_cases false a b Ha Hb)
    as (sh & m & Hsh & Hm & Hm53 & Hm52 & ->).
  destruct (nearest_cases false a' b' Ha' Hb')
    as (sh' & m' & Hsh' & Hm' & Hm53' & Hm52' & ->).
  assert (Hq : a * 2 ^ 1074 / b <= a' * 2 ^ 1074 / b').
  { apply div_le_cross; try assumption.
    assert (0 < 2 ^ 1074) by reflexivity. nia. }
  assert (H0 : 0 <= a * 2 ^ 1074 / b) by (apply Z.div_pos; lia).
  assert (Hshle : sh <= sh').
  { pose proof (Z.log2_le_mono _ _ Hq). lia. }
  assert (Hmle : sh = sh' → m <= m').
  { intros Heq. rewrite Hm, Hm', <- Heq.
    assert (0 < 2 ^ sh) by (apply Z.pow_pos_nonneg; lia).
    assert (0 < 2 ^ 1074) by reflexivity.
    apply round_half_even_mono; nia. }
  assert (Hsh0 : 0 <= sh <= sh') by lia.
  clear Hsh Hsh' Hm Hm' Hq H0 Hshle.
  assert (H52 : 0 < 2 ^ (prec - 1)) by reflexivity.
  assert (H53 : 2 ^ prec = 2 * 2 ^ (prec - 1)) by reflexivity.
  unfold emax in *. rewrite H53 in Hm53, Hm53' |- *. clear H53.
  set (P52 := 2 ^ (prec - 1)) in *. clearbody P52.
  destruct (Z.eqb_spec m (2 * P52)) as [Hb1 | Hb1];
    destruct (Z.eqb_spec m' (2 * P52)) as [Hb2 | Hb2];
    repeat match goal with
    | |- context [?x =? 0] => destruct (Z.eqb_spec x 0)
    | |- context [?x <? ?y] => destruct (Z.ltb_spec x y)
    end;
    try (apply leb_zero_nonneg; reflexivity);
    try (apply (leb_infinity _ false); reflexivity);
    try (apply leb_finite; lia);
    try (exfalso; unfold prec in *; lia).
Qed.

(** The order of two canonical non-negative finite floats is the order of
    their exact values, here scaled by [2 ^ - c] to integers. *)
Lemma leb_exact m e m' e' c :
  canonical_mantissa prec emax m e = true →
  canonical_mantissa prec emax m' e' = true →
  leb (S754_finite false m e) (S754_finite false m' e') = true →
  c <= e → c <= e' →
  Z.pos m * 2 ^ (e - c) <= Z.pos m' * 2 ^ (e' - c).
Proof.
  intros Hc Hc' Hle He He'. unfold leb, SFleb, SFcompare in Hle.
  assert (Hp : 0 < 2 ^ (e - c)) by (apply Z.pow_pos_nonneg; lia).
  assert (Hp' : 0 < 2 ^ (e' - c)) by (apply Z.pow_pos_nonneg; lia).
  destruct (Z.compare_spec e e') as [Heq | Hlt | Hgt]; [| | discriminate Hle].
  - subst e'.
    change (PosDef.Pos.compare_cont Eq ?p ?q) with (Pos.compare p q) in Hle.
    destruct (Pos.compare_spec m m'); try discriminate Hle; nia.
  - pose proof (canonical_exponent_lt m' e' m e Hc' Hc Hlt) as Hm.
    replace (e' - c) with ((e' - e) + (e - c)) by lia.
    rewrite Z.pow_add_r by lia.
    assert (0 < 2 ^ (e' - e)) by (apply Z.pow_pos_nonneg; lia). nia.
Qed.

Lemma scaled_spec m e p c a b :
  c <= e → c <= 0 → scaled m e p = (a, b) →
  0 < b ∧ 0 <= a ∧
  a * (2 ^ (- c) * 10 ^ Z.max 0 (- p))
    = Z.pos m * 2 ^ (e - c) * 10 ^ Z.max 0 p * b.
Proof.
  intros Hce Hc0. unfold scaled.
  assert (0 < 2 ^ (- c)) by (apply Z.pow_pos_nonneg; lia).
  assert (0 < 2 ^ (e - c)) by (apply Z.pow_pos_nonneg; lia).
  assert (Hbase : ∃ a0 b0,
    (if 0 <=? e then (Z.pos m * 2 ^ e, 1) else (Z.pos m, 2 ^ (- e))) = (a0, b0) ∧
    0 < b0 ∧ 0 <= a0 ∧ a0 * 2 ^ (- c) = Z.pos m * 2 ^ (e - c) * b0).
  { destruct (Z.leb_spec 0 e); eexists _, _; (split; [reflexivity |]).
    - assert (0 < 2 ^ e) by (apply Z.pow_pos_nonneg; lia).
      repeat apply conj; try lia.
      replace (e - c) with (e + - c) by lia. rewrite Z.pow_add_r by lia. ring.
    - assert (0 < 2 ^ (- e)) by (apply Z.pow_pos_nonneg; lia).
      repeat apply conj; try lia.
      replace (- c) with ((e - c) + - e) by lia. rewrite Z.pow_add_r by lia. ring. }
  destruct Hbase as (a0 & b0 & -> & Hb0 & Ha0 & Heq).
  destruct (Z.leb_spec 0 p); intros [= <- <-].
  - assert (0 < 10 ^ p) by (apply Z.pow_pos_nonneg; lia).
    rewrite (Z.max_l 0 (- p)), (Z.max_r 0 p) by lia.
    split; [lia |]. split; [nia |].
    rewrite Z.pow_0_r, Z.mul_1_r.
    replace (a0 * 10 ^ p * 2 ^ (- c)) with (a0 * 2 ^ (- c) * 10 ^ p) by ring.
    rewrite Heq. ring.
  - assert (0 < 10 ^ (- p)) by (apply Z.pow_pos_nonneg; lia).
    rewrite (Z.max_r 0 (- p)), (Z.max_l 0 p) by lia.
    split; [nia |]. split; [lia |].
    rewrite Z.pow_0_r, Z.mul_1_r.
    replace (a0 * (2 ^ (- c) * 10 ^ (- p))) with (a0 * 2 ^ (- c) * 10 ^ (- p)) by ring.
    rewrite Heq. ring.
Qed.

Lemma scaled_mono m e m' e' p a b a' b' :
  canonical_mantissa prec emax m e = true →
  canonical_mantissa prec emax m' e' = true →
  leb (S754_finite false m e) (S754_finite false m' e') = true →
  scaled m e p = (a, b) → scaled m' e' p = (a', b') →
  0 < b ∧ 0 < b' ∧ 0 <= a ∧ a * b' <= a' * b.
Proof.
  intros Hc Hc' Hle Hs Hs'.
  set (c := Z.min 0 (Z.min e e')).
  pose proof (leb_exact m e m' e' c Hc Hc' Hle ltac:(lia) ltac:(lia)) as Hv.
  destruct (scaled_spec m e p c a b ltac:(lia) ltac:(lia) Hs) as (Hb & Ha & Heq).
  destruct (scaled_spec m' e' p c a' b' ltac:(lia) ltac:(lia) Hs')
    as (Hb' & Ha' & Heq').
  repeat apply conj; try assumption.
  assert (HK : 0 < 2 ^ (- c) * 10 ^ Z.max 0 (- p)).
  { apply Z.mul_pos_pos; apply Z.pow_pos_nonneg; lia. }
  assert (HT : 0 < 10 ^ Z.max 0 p) by (apply Z.pow_pos_nonneg; lia).
  set (K := 2 ^ (- c) * 10 ^ Z.max 0 (- p)) in *.
  set (T := 10 ^ Z.max 0 p) in *.
  set (V := Z.pos m * 2 ^ (e - c)) in *.
  set (V' := Z.pos m' * 2 ^ (e' - c)) in *.
  clearbody K T V V'.
  apply (Z.mul_le_mono_pos_r _ _ K HK).
  replace (a * b' * K) with (a * K * b') by ring.
  replace (a' * b * K) with (a' * K * b) by ring.
  rewrite Heq, Heq'.
  replace (V * T * b * b') with (V * (T * b * b')) by ring.
  replace (V' * T * b' * b) with (V' * (T * b * b')) by ring.
  apply Z.mul_le_mono_nonneg_r; [| exact Hv].
  apply Z.lt_le_incl. repeat apply Z.mul_pos_pos; assumption.
Qed.

Lemma decimal_mono n n' q :
  0 <= n <= n' → leb (decimal false n q) (decimal false n' q) = true.
Proof.
  intros Hn. unfold decimal. destruct (Z.leb_spec 0 q).
  - assert (0 < 10 ^ q) by (apply Z.pow_pos_nonneg; lia).
    apply nearest_mono; nia.
  - assert (0 < 10 ^ (- q)) by (apply Z.pow_pos_nonneg; lia).
    apply nearest_mono; nia.
Qed.

Lemma round_sign s x p y : has_sign s x → round x p = Ret y → has_sign s y.
Proof.
  destruct x as [s' | s' | | s' m e]; simpl; try (intros Hs [= <-]; exact Hs).
  intros ->.
  destruct (NDIGITS_MAX <? p); [intros [= <-]; reflexivity |].
  destruct (p <? NDIGITS_MIN); [intros [= <-]; reflexivity |].
  destruct (scaled m e p) as [a b].
  pose proof (decimal_sign s (round_half_even a b) (- p)) as Hs.
  destruct (decimal s _ _); simpl in Hs; try contradiction; intros [= <-];
    exact Hs.
Qed.

(** [round] is monotone on the non-negative floats. *)
Lemma round_mono x y p rx ry :
  valid x = true → valid y = true →
  leb zero x = true → leb x y = true →
  round x p = Ret rx → round y p = Ret ry → leb rx ry = true.
Proof.
  intros Hvx Hvy H0 Hxy Hrx Hry.
  destruct x as [sx | sx | | sx mx ex]; try discriminate H0.
  - injection Hrx as <-.
    assert (Hy : leb zero y = true) by (destruct y; exact Hxy).
    pose proof (round_nonneg y p ry Hy Hry) as Hr. destruct ry; exact Hr.
  - destruct sx; [discriminate H0 |].
    destruct y as [sy | [|] | | sy my ey]; try discriminate Hxy.
    injection Hrx as <-. injection Hry as <-. reflexivity.
  - destruct sx; [discriminate H0 |].
    destruct y as [sy | [|] | | [|] my ey]; try discriminate Hxy.
    + injection Hry as <-. apply (leb_infinity _ false).
      eapply round_sign; [| exact Hrx]. reflexivity.
    + unfold valid, valid_binary, bounded in Hvx, Hvy.
      apply andb_prop in Hvx as [Hcx _]. apply andb_prop in Hvy as [Hcy _].
      simpl in Hrx, Hry.
      destruct (NDIGITS_MAX <? p).
      { injection Hrx as <-. injection Hry as <-. exact Hxy. }
      destruct (p <? NDIGITS_MIN).
      { injection Hrx as <-. injection Hry as <-. reflexivity. }
      destruct (scaled mx ex p) as [a b] eqn:Hs.
      destruct (scaled my ey p) as [a' b'] eqn:Hs'.
      destruct (scaled_mono mx ex my ey p a b a' b' Hcx Hcy Hxy Hs Hs')
        as (Hb & Hb' & Ha & Hab).
      pose proof (round_half_even_nonneg a b Ha Hb) as Hn.
      pose proof (round_half_even_mono a b a' b' Hb Hb' Hab) as Hnn.
      pose proof (decimal_mono _ _ (- p) (conj Hn Hnn)) as Hd.
      destruct (decimal false (round_half_even a b) (- p)); try discriminate Hrx;
        destruct (decimal false (round_half_even a' b') (- p));
        try discriminate Hry; injection Hrx as <-; injection Hry as <-;
        exact Hd.
Qed.

(** *** Rounding [1.0] *)

Lemma nearest_one b : 0 < b → nearest false b b = one.
Proof.
  intros Hb. unfold nearest.
  rewrite (Z.mul_comm b (2 ^ 1074)), Z.div_mul by lia.
  change (Z.max 0 (Z.log2 (2 ^ 1074) + 1 - prec)) with 1022.
  replace (2 ^ 1074 * b) with (b * 2 ^ 1022 * 2 ^ 52)
    by (change (2 ^ 1074) with (2 ^ 1022 * 2 ^ 52); ring).
  rewrite round_half_even_exact by (assert (0 < 2 ^ 1022) by reflexivity; nia).
  reflexivity.
Qed.

Lemma round_one p : round one p = Ret one ∨ round one p = Ret zero.
Proof.
  unfold one, round.
  destruct (NDIGITS_MAX <? p); [by left |].
  destruct (Z.ltb_spec p NDIGITS_MIN); [by right |].
  unfold scaled. change (0 <=? -52) with false. cbv iota.
  change (Z.pos 4503599627370496) with (2 ^ 52). change (2 ^ (- -52)) with (2 ^ 52).
  destruct (Z.leb_spec 0 p) as [Hp | Hp].
  - left. assert (0 < 10 ^ p) by (apply Z.pow_pos_nonneg; lia).
    rewrite (Z.mul_comm (2 ^ 52)).
    rewrite (Z.mul_comm (10 ^ p)), round_half_even_exact by reflexivity.
    unfold decimal. destruct (Z.leb_spec 0 (- p)).
    + assert (p = 0) as -> by lia. reflexivity.
    + rewrite Z.opp_involutive, nearest_one by assumption. reflexivity.
  - right. assert (H10 : 10 <= 10 ^ (- p)).
    { change 10 with (10 ^ 1) at 1. apply Z.pow_le_mono_r; lia. }
    assert (Hn : round_half_even (2 ^ 52) (2 ^ 52 * 10 ^ (- p)) = 0).
    { assert (0 < 2 ^ 52) by reflexivity.
      pose proof (round_half_even_nonneg (2 ^ 52) (2 ^ 52 * 10 ^ (- p))
                    ltac:(lia) ltac:(nia)).
      pose proof (round_half_even_lt (2 ^ 52) (2 ^ 52 * 10 ^ (- p)) 1
                    ltac:(nia) ltac:(nia)).
      lia. }
    rewrite Hn. unfold decimal.
    destruct (Z.leb_spec 0 (- p)); [| lia]. rewrite Z.mul_0_l. reflexivity.
Qed.

Lemma round_le_one x p y :
  valid x = true → leb zero x = true → leb x one = true →
  round x p = Ret y → leb zero y = true ∧ leb y one = true.
Proof.
  intros Hv H0 H1 Hr. split; [by eapply round_nonneg |].
  destruct (round_one p) as [Hone | Hone].
  - exact (round_mono x one p y one Hv eq_refl H0 H1 Hr Hone).
  - pose proof (round_mono x one p y zero Hv eq_refl H0 H1 Hr Hone) as Hle.
    destruct y as [s | [|] | | [|] m e]; try discriminate Hle; reflexivity.
Qed.

(** *** Negative values *)

Lemma nearest_opp s a b : nearest (negb s) a b = SFopp (nearest s a b).
Proof.
  unfold nearest.
  destruct (round_half_even _ _ =? 2 ^ prec);
    repeat match goal with |- context [if ?c then _ else _] => destruct c end;
    reflexivity.
Qed.

Lemma decimal_opp s d q : decimal (negb s) d q = SFopp (decimal s d q).
Proof. unfold decimal. destruct (0 <=? q); apply nearest_opp. Qed.

Lemma round_opp x p :
  round (SFopp x) p =
  match round x p with
  | Ret r => Ret (SFopp r)
  | Raise e => Raise e
  end.
Proof.
  destruct x as [s | s | | s m e]; simpl; try reflexivity.
  destruct (NDIGITS_MAX <? p); [reflexivity |].
  destruct (p <? NDIGITS_MIN); [reflexivity |].
  destruct (scaled m e p) as [a b]. rewrite decimal_opp.
  destruct (decimal s _ _); reflexivity.
Qed.

Lemma leb_opp x y : leb x y = true → leb (SFopp y) (SFopp x) = true.
Proof.
  unfold leb, SFleb.
  destruct x as [sx | sx | | sx mx ex], y as [sy | sy | | sy my ey];
    repeat match goal with s : bool |- _ => destruct s end;
    simpl; try done;
    rewrite (Z.compare_antisym ex ey);
    destruct (ex ?= ey); simpl; try done;
    change (PosDef.Pos.compare_cont Eq ?p ?q) with (Pos.compare p q) in *;
    rewrite (Pos.compare_antisym mx my);
    destruct (Pos.compare mx my); simpl; done.
Qed.

Lemma SFopp_involutive x : SFopp (SFopp x) = x.
Proof. destruct x as [s | s | | s m e]; simpl; by rewrite ?negb_involutive. Qed.

Lemma valid_opp x : valid (SFopp x) = valid x.
Proof. by destruct x. Qed.

Lemma sign_cases x :
  x = S754_nan ∨ leb zero x = true ∨
  (has_sign true x ∧ leb zero (SFopp x) = true).
Proof.
  destruct x as [[|] | [|] | | [|] m e]; simpl; auto.
Qed.

Lemma leb_neg_nonneg x y : has_sign true x → leb zero y = true → leb x y = true.
Proof.
  destruct x as [sx | sx | | sx mx ex]; simpl; try done; intros ->;
    destruct y as [sy | [|] | | [|] my ey]; done.
Qed.

(** [round] is monotone. *)
Lemma round_monotone x y p rx ry :
  valid x = true → valid y = true → leb x y = true →
  round x p = Ret rx → round y p = Ret ry → leb rx ry = true.
Proof.
  intros Hvx Hvy Hxy Hrx Hry.
  destruct (sign_cases x) as [-> | [Hx | [Hsx Hx]]]; [discriminate Hxy | |].
  { exact (round_mono x y p rx ry Hvx Hvy Hx Hxy Hrx Hry). }
  destruct (sign_cases y) as [-> | [Hy | [Hsy Hy]]].
  - by destruct x as [? | ? | | ? ? ?].
  - apply leb_neg_nonneg;
      [exact (round_sign true x p rx Hsx Hrx) | exact (round_nonneg y p ry Hy Hry)].
  - apply leb_opp in Hxy.
    pose proof (round_opp x p) as Hox. rewrite Hrx in Hox.
    pose proof (round_opp y p) as Hoy. rewrite Hry in Hoy.
    rewrite <- (SFopp_involutive rx), <- (SFopp_involutive ry).
    apply leb_opp.
    apply (round_mono (SFopp y) (SFopp x) p); try assumption;
      by rewrite valid_opp.
Qed.

(** ** The magnitude of a difference *)

Lemma below_le E E' x : E <= E' → below E x → below E' x.
Proof. destruct x; simpl; try done. intros ? [? ?]. split; lia. Qed.

Lemma below_in_range x : below (emax - prec) x ↔ in_range x.
Proof. by destruct x. Qed.

Lemma Zdigits2_le m k : 0 <= m < 2 ^ k → 0 <= k → Zdigits2 m <= k.
Proof.
  intros [H0 Hm] Hk. destruct m as [| m | m]; simpl; [exact Hk | | lia].
  pose proof (digits2_pos_bounds m) as [Hlow _].
  assert (Hlt : 2 ^ (Z.pos (digits2_pos m) - 1) < 2 ^ k) by lia.
  apply Z.pow_lt_mono_r_iff in Hlt; lia.
Qed.

Lemma shr_fexp_exp m e l :
  (shr_fexp prec emax m e l).2 = Z.max e (fexp prec emax (Zdigits2 m + e)).
Proof.
  unfold shr_fexp, shr.
  destruct (fexp prec emax (Zdigits2 m + e) - e) eqn:Hn; simpl snd; lia.
Qed.

Lemma round_nearest_even_le m l : round_nearest_even m l <= m + 1.
Proof. destruct l as [| []]; simpl; try lia. destruct (Z.even m); lia. Qed.

Lemma binary_round_aux_below sx mx ex lx k E :
  0 <= mx < 2 ^ k → 0 <= k → ex <= E → k + ex - prec <= E → emin prec emax <= E →
  below (E + 1) (binary_round_aux prec emax sx mx ex lx).
Proof.
  intros Hm Hk Hex Hke Hmin. unfold binary_round_aux.
  pose proof (shr_fexp_bound mx ex lx ltac:(lia)) as H1.
  pose proof (shr_fexp_exp mx ex lx) as He1.
  pose proof (Zdigits2_le mx k Hm Hk) as Hd1.
  destruct (shr_fexp prec emax mx ex lx) as [mrs' e']. simpl fst in H1.
  simpl snd in He1.
  assert (He' : e' <= E) by (unfold fexp in He1; lia).
  set (m2 := round_nearest_even (shr_m mrs') (loc_of_shr_record mrs')).
  pose proof (round_nearest_even_nonneg (shr_m mrs') (loc_of_shr_record mrs')
                ltac:(lia)) as H2.
  pose proof (round_nearest_even_le (shr_m mrs') (loc_of_shr_record mrs')) as H2'.
  fold m2 in H2, H2'.
  assert (Hm2 : 0 <= m2 < 2 ^ (prec + 1)).
  { change (2 ^ (prec + 1)) with (2 * 2 ^ prec). lia. }
  pose proof (shr_fexp_bound m2 e' loc_Exact H2) as H3.
  pose proof (shr_fexp_exp m2 e' loc_Exact) as He3.
  pose proof (Zdigits2_le m2 (prec + 1) Hm2 ltac:(unfold prec; lia)) as Hd2.
  destruct (shr_fexp prec emax m2 e' loc_Exact) as [mrs'' e'']. simpl fst in H3.
  simpl snd in He3.
  destruct (shr_m mrs'') as [| m | m]; simpl; trivial.
  destruct (e'' <=? emax - prec); simpl; trivial.
  split; [lia |]. unfold fexp in He3. lia.
Qed.

Lemma shl_align_spec mx ex ex' :
  (shl_align mx ex ex').2 <= ex ∧
  Z.pos (shl_align mx ex ex').1 = Z.pos mx * 2 ^ (ex - (shl_align mx ex ex').2).
Proof.
  destruct (Z.le_gt_cases ex' ex) as [Hle | Hgt].
  - assert (Hsnd : (shl_align mx ex ex').2 = ex' ∨ (shl_align mx ex ex').2 = ex).
    { unfold shl_align. destruct (ex' - ex); simpl; auto. }
    assert (Hsnd' : (shl_align mx ex ex').2 = ex').
    { unfold shl_align in *. destruct (ex' - ex) eqn:Hd; simpl in *; lia. }
    rewrite Hsnd'. split; [exact Hle | by apply shl_align_value].
  - unfold shl_align. destruct (ex' - ex) eqn:Hd; try lia. simpl.
    rewrite Z.sub_diag. lia.
Qed.

Lemma binary_round_below sx mx ex K E :
  Z.pos mx < 2 ^ (K - ex) → ex <= K → ex <= E → K - prec <= E →
  emin prec emax <= E →
  below (E + 1) (binary_round prec emax sx mx ex).
Proof.
  intros Hm HK Hex HKE Hmin. unfold binary_round.
  destruct (shl_align_spec mx ex (fexp prec emax (Z.pos (digits2_pos mx) + ex)))
    as [Hez Hmz].
  destruct (shl_align _ _ _) as [mz ez]. simpl fst in Hmz. simpl snd in Hez, Hmz.
  apply (binary_round_aux_below _ _ _ _ (K - ez)); try lia.
  split; [lia |]. rewrite Hmz.
  replace (K - ez) with ((K - ex) + (ex - ez)) by lia.
  rewrite Z.pow_add_r by lia.
  apply Z.mul_lt_mono_pos_r; [apply Z.pow_pos_nonneg; lia | exact Hm].
Qed.

Lemma sub_below E x y :
  emin prec emax <= E + 1 → below E x → below E y → below (E + 2) (sub x y).
Proof.
  intros Hmin. unfold sub.
  destruct x as [sx | sx | | sx mx ex], y as [sy | sy | | sy my ey];
    simpl; trivial;
    try (destruct sx, sy; simpl; trivial; fail);
    try (intros _ [? ?]; split; lia); try (intros [? ?] _; split; lia).
  intros [Hmx Hex] [Hmy Hey].
  set (ez := Z.min ex ey).
  rewrite (shl_align_value mx ex ez), (shl_align_value my ey ez) by lia.
  assert (Hpx : 0 < 2 ^ (ex - ez)) by (apply Z.pow_pos_nonneg; lia).
  assert (Hpy : 0 < 2 ^ (ey - ez)) by (apply Z.pow_pos_nonneg; lia).
  assert (Hbx : Z.pos mx * 2 ^ (ex - ez) < 2 ^ prec * 2 ^ (E - ez)).
  { assert (2 ^ (ex - ez) <= 2 ^ (E - ez)) by (apply Z.pow_le_mono_r; lia).
    assert (0 < 2 ^ prec) by reflexivity. nia. }
  assert (Hby : Z.pos my * 2 ^ (ey - ez) < 2 ^ prec * 2 ^ (E - ez)).
  { assert (2 ^ (ey - ez) <= 2 ^ (E - ez)) by (apply Z.pow_le_mono_r; lia).
    assert (0 < 2 ^ prec) by reflexivity. nia. }
  assert (Hpow : 2 ^ (prec + 1 + E - ez) = 2 * (2 ^ prec * 2 ^ (E - ez))).
  { replace (prec + 1 + E - ez) with (1 + (prec + (E - ez))) by lia.
    rewrite !Z.pow_add_r by (unfold prec; lia). reflexivity. }
  set (D := cond_Zopp sx (Z.pos mx * 2 ^ (ex - ez))
            - cond_Zopp sy (Z.pos my * 2 ^ (ey - ez))).
  assert (HD : Z.abs D < 2 ^ (prec + 1 + E - ez)).
  { rewrite Hpow. unfold D. destruct sx, sy; simpl; lia. }
  replace (E + 2) with (E + 1 + 1) by lia.
  destruct D as [| d | d]; simpl; trivial;
    apply (binary_round_below _ _ _ (prec + 1 + E)); unfold prec in *; simpl in HD;
    lia.
Qed.

(** ** No overflow for values of moderate magnitude *)

Lemma round_returns_moderate x p : below 969 x → ∃ y, round x p = Ret y.
Proof.
  intros Hx.
  destruct (Z.le_gt_cases 0 p) as [Hp | Hp].
  { apply round_returns; [| exact Hp]. apply below_in_range.
    eapply below_le; [| exact Hx]. by compute. }
  destruct (Z.lt_ge_cases p NDIGITS_MIN) as [Hlo | Hlo];
    [by apply round_returns_below |].
  destruct x as [s | s | | s m e]; simpl; eauto.
  destruct Hx as [Hm He].
  destruct (NDIGITS_MAX <? p); [eauto |].
  destruct (Z.ltb_spec p NDIGITS_MIN) as [? | _]; [eauto |].
  unfold scaled. destruct (Z.leb_spec 0 p) as [? | _]; [lia |].
  assert (H10 : 0 < 10 ^ (- p)) by (apply Z.pow_pos_nonneg; lia).
  assert (H10' : 10 ^ (- p) <= 10 ^ 308)
    by (apply Z.pow_le_mono_r; unfold NDIGITS_MIN in Hlo; lia).
  assert (Hbase : ∃ a0 b0,
    (if 0 <=? e then (Z.pos m * 2 ^ e, 1) else (Z.pos m, 2 ^ (- e))) = (a0, b0) ∧
    0 < b0 ∧ 0 <= a0 ∧ a0 < 2 ^ 1022 * b0).
  { destruct (Z.leb_spec 0 e); eexists _, _; (split; [reflexivity |]).
    - assert (0 < 2 ^ e) by (apply Z.pow_pos_nonneg; lia).
      assert (2 ^ e <= 2 ^ 969) by (apply Z.pow_le_mono_r; lia).
      change (2 ^ 1022) with (2 ^ prec * 2 ^ 969). nia.
    - assert (0 < 2 ^ (- e)) by (apply Z.pow_pos_nonneg; lia).
      assert (2 ^ prec <= 2 ^ 1022) by (by compute). nia. }
  destruct Hbase as (a0 & b0 & -> & Hb0 & Ha0 & Hab).
  set (n := round_half_even a0 (b0 * 10 ^ (- p))).
  assert (Hn : 0 <= n * 10 ^ (- p) < 2 ^ 1024 - 2 ^ 970).
  { pose proof (round_half_even_nonneg a0 (b0 * 10 ^ (- p)) Ha0 ltac:(nia)).
    pose proof (round_half_even_le a0 (b0 * 10 ^ (- p)) Ha0 ltac:(nia)) as Hle.
    fold n in H, Hle.
    pose proof (Z.mul_div_le a0 (b0 * 10 ^ (- p)) ltac:(nia)) as Hq.
    set (q := a0 / (b0 * 10 ^ (- p))) in *.
    assert (q * 10 ^ (- p) < 2 ^ 1022) by nia.
    assert (2 ^ 1022 + 10 ^ 308 < 2 ^ 1024 - 2 ^ 970) by reflexivity.
    nia. }
  assert (Hfin : is_finite (decimal s n (- p)) = true).
  { unfold decimal. destruct (Z.leb_spec 0 (- p)); [| lia].
    apply nearest_finite; lia. }
  destruct (decimal s n (- p)); try discriminate Hfin; eauto.
Qed.

(** ** Equal times *)

Lemma eqb_finite_eq s m e s' m' e' :
  eqb (S754_finite s m e) (S754_finite s' m' e') = true →
  s = s' ∧ m = m' ∧ e = e'.
Proof.
  unfold eqb, SFeqb, SFcompare. destruct s, s'; try discriminate;
    destruct (Z.compare_spec e e'); try discriminate;
    change (PosDef.Pos.compare_cont Eq ?p ?q) with (Pos.compare p q);
    destruct (Pos.compare_spec m m'); try discriminate; done.
Qed.

Lemma sub_equal x y :
  is_finite x = true → eqb x y = true → eqb (sub x y) zero = true.
Proof.
  intros Hf He.
  destruct x as [sx | sx | | sx mx ex], y as [sy | sy | | sy my ey];
    try discriminate Hf; try discriminate He;
    try (destruct sx; discriminate He); try (destruct sy; discriminate He).
  - by destruct sx, sy.
  - apply eqb_finite_eq in He as (-> & -> & ->). unfold sub, SFsub.
    rewrite Z.sub_diag. reflexivity.
Qed.

(** ** More on [round] *)

Lemma round_above x p : NDIGITS_MAX < p → round x p = Ret x.
Proof.
  intros Hp. destruct x as [s | s | | s m e]; simpl; try reflexivity.
  destruct (Z.ltb_spec NDIGITS_MAX p); [reflexivity | lia].
Qed.

Lemma round_non_finite x p : is_finite x = false → round x p = Ret x.
Proof. by destruct x. Qed.

Lemma round_below_zero x p :
  p < NDIGITS_MIN → is_finite x = true → ∃ z, round x p = Ret z ∧ eqb z zero = true.
Proof.
  intros Hp Hfin. destruct x as [s | s | | s m e]; try discriminate Hfin; simpl.
  - by exists (S754_zero s).
  - destruct (Z.ltb_spec NDIGITS_MAX p); [unfold NDIGITS_MAX, NDIGITS_MIN in *; lia |].
    destruct (Z.ltb_spec p NDIGITS_MIN); [| lia]. by exists (S754_zero s).
Qed.

Lemma round_zero s p : round (S754_zero s) p = Ret (S754_zero s).
Proof. reflexivity. Qed.

(** ** More on [mapM] *)

Lemma mapM_Raise {A B} (g : A → outcome B) l e :
  mapM g l = Raise e ↔
  ∃ (i : nat) x, l !! i = Some x ∧ g x = Raise e ∧
    ∀ (j : nat) y, (j < i)%nat → l !! j = Some y → ∃ z, g y = Ret z.
Proof.
  induction l as [| x l IH]; [split; [discriminate | by intros (i & y & ? & _)] |].
  rewrite mapM_cons_outcome. split.
  - destruct (g x) as [z |] eqn:Hx.
    + destruct (mapM g l) as [k |] eqn:Hl; [discriminate |].
      intros [= ->]. destruct (proj1 IH eq_refl) as (i & y & Hi & Hy & Hbefore).
      exists (S i), y. repeat apply conj; try assumption.
      intros [| j] y' Hj Hy'.
      * injection Hy' as <-. by exists z.
      * apply (Hbefore j y'); [lia | exact Hy'].
    + intros [= ->]. exists 0%nat, x. repeat apply conj; try done. lia.
  - intros ([| i] & y & Hi & Hy & Hbefore).
    + injection Hi as <-. by rewrite Hy.
    + destruct (Hbefore 0%nat x ltac:(lia) eq_refl) as [z ->].
      assert (Hl : mapM g l = Raise e).
      { apply IH. exists i, y. repeat apply conj; try assumption.
        intros j y' Hj Hy'. apply (Hbefore (S j) y'); [lia | exact Hy']. }
      by rewrite Hl.
Qed.

Lemma mapM_app_Ret {A B} (g : A → outcome B) l1 l2 k1 k2 :
  mapM g l1 = Ret k1 → mapM g l2 = Ret k2 → mapM g (l1 ++ l2) = Ret (k1 ++ k2).
Proof.
  rewrite !mapM_Ret. apply Forall2_app.
Qed.

(** * More on the returned dictionaries *)

Section MoreValues.

Variable threshold : float.

Lemma format_result_value_Ret h l p d :
  format_result_value threshold h l p = Ret d →
  ∃ r a, result_at h l r a ∧ rounded_dict threshold r a p = Ret d.
Proof.
  unfold format_result_value, read_result, result_at.
  destruct (h !! l) as [[a | r | items] |] eqn:Hl; try discriminate.
  destruct (h !! AlignmentResult.ayah r) as [[a | r' | items] |] eqn:Ha;
    try discriminate.
  intros Hd. exists r, a. split; [split; [reflexivity | exact Ha] | exact Hd].
Qed.

Lemma format_result_Ret_any h l p d h' :
  format_result threshold l p h = (Ret d, h') →
  h' = h ∧ ∃ r a st en du sc,
    result_at h l r a ∧
    round (AlignmentResult.start_time r) p = Ret st ∧
    round (AlignmentResult.end_time r) p = Ret en ∧
    round (AlignmentResult.duration r) p = Ret du ∧
    round (AlignmentResult.similarity_score r) p = Ret sc ∧
    d = canonical_dict threshold r a st en du sc.
Proof.
  rewrite format_result_run. intros [= Hd <-]. split; [reflexivity |].
  apply format_result_value_Ret in Hd as (r & a & Hat & Hd).
  apply rounded_dict_Ret in Hd as (st & en & du & sc & ? & ? & ? & ? & ->).
  by exists r, a, st, en, du, sc.
Qed.

Lemma canonical_dict_floats r a st en du sc :
  float_at (canonical_dict threshold r a st en du sc) "start_time" = Some st ∧
  float_at (canonical_dict threshold r a st en du sc) "end_time" = Some en ∧
  float_at (canonical_dict threshold r a st en du sc) "duration" = Some du ∧
  float_at (canonical_dict threshold r a st en du sc) "similarity_score" = Some sc.
Proof. repeat apply conj; reflexivity. Qed.

Lemma lookup_insert_frame (m1 m2 : gmap string pyval) i x k :
  m1 !! k = m2 !! k → <[i:=x]> m1 !! k = <[i:=x]> m2 !! k.
Proof. intros H. rewrite !lookup_insert. by case_decide. Qed.

Lemma lookup_insert_frame_ne (m1 m2 : gmap string pyval) i x y k :
  k ≠ i → m1 !! k = m2 !! k → <[i:=x]> m1 !! k = <[i:=y]> m2 !! k.
Proof. intros Hne H. by rewrite !lookup_insert_ne. Qed.

Lemma canonical_dict_frame r a st en du sc st' en' du' sc' k :
  k ∉ float_keys →
  canonical_dict threshold r a st en du sc !! k
  = canonical_dict threshold r a st' en' du' sc' !! k.
Proof.
  intros Hk. unfold canonical_dict, py_dict. cbn [foldl fst snd].
  assert (k ≠ "start_time" ∧ k ≠ "end_time" ∧ k ≠ "duration" ∧
          k ≠ "similarity_score") as (H1 & H2 & H3 & H4).
  { unfold float_keys in Hk. cbn [list_to_set foldr] in Hk. set_solver. }
  repeat first
    [ apply lookup_insert_frame
    | apply lookup_insert_frame_ne; [assumption |] ].
  reflexivity.
Qed.

Lemma results_dict_metadata sid rec ayahs :
  results_dict sid rec ayahs = with_metadata sid rec (results_dict None None ayahs).
Proof. reflexivity. Qed.

Lemma results_dict_dom sid rec ayahs :
  dom (results_dict sid rec ayahs)
  = {["ayahs"]} ∪ from_option (λ _, {["surah_id"]}) ∅ sid
      ∪ from_option (λ _, {["reciter"]}) ∅ rec.
Proof. destruct sid, rec; reflexivity. Qed.

Lemma rounded_dict_returns_moderate r a p :
  below 967 (AlignmentResult.start_time r) →
  below 967 (AlignmentResult.end_time r) →
  below 969 (AlignmentResult.similarity_score r) →
  ∃ d, rounded_dict threshold r a p = Ret d.
Proof.
  intros Hst Hen Hsc.
  assert (Hdu : below 969 (AlignmentResult.duration r))
    by (apply (sub_below 967); [by compute | assumption ..]).
  destruct (round_returns_moderate _ p (below_le 967 969 _ ltac:(lia) Hst))
    as [st Hst'].
  destruct (round_returns_moderate _ p (below_le 967 969 _ ltac:(lia) Hen))
    as [en Hen'].
  destruct (round_returns_moderate _ p Hdu) as [du Hdu'].
  destruct (round_returns_moderate _ p Hsc) as [sc Hsc'].
  exists (canonical_dict threshold r a st en du sc).
  unfold rounded_dict. rewrite Hst', Hen', Hdu', Hsc'. reflexivity.
Qed.

End MoreValues.

(** * Further properties of the formatter *)

Section Extras.

Variable threshold : float.

(** X1: the dict [format_results] returns has no other keys than [ayahs],
    [surah_id] when it was given and [reciter] when it was given. *)
Theorem format_results_keys h ll sid rec p out h' :
  format_results threshold ll sid rec p h = (Ret out, h') →
  dom out = {["ayahs"]} ∪ from_option (λ _, {["surah_id"]}) ∅ sid
              ∪ from_option (λ _, {["reciter"]}) ∅ rec.
Proof.
  intros Hrun.
  apply format_results_Ret in Hrun as (_ & items & ayahs & _ & _ & ->).
  apply results_dict_dom.
Qed.

(** X2: [format_results] raises exactly when [format_result] raises on some
    element, and then raises what the first such element raises; there is no
    partial result. *)
Theorem format_results_raises_first h ll items sid rec p e :
  h !! ll = Some (OList items) →
  format_results threshold ll sid rec p h = (Raise e, h) ↔
  ∃ (i : nat) l,
    items !! i = Some l ∧ format_result threshold l p h = (Raise e, h) ∧
    ∀ (j : nat) l', (j < i)%nat → items !! j = Some l' →
      ∃ d, format_result threshold l' p h = (Ret d, h).
Proof.
  intros Hll. rewrite format_results_run. unfold format_results_value.
  rewrite Hll.
  set (g := λ l, d ← format_result_value threshold h l p; mret (VDict d)).
  assert (Hraise : ∀ l, g l = Raise e ↔ format_result threshold l p h = (Raise e, h)).
  { intros l. unfold g. rewrite format_result_run.
    unfold mbind, outcome_bind, mret, outcome_ret.
    destruct (format_result_value threshold h l p); split; congruence. }
  assert (Hret : ∀ l, (∃ v, g l = Ret v) ↔
                      ∃ d, format_result threshold l p h = (Ret d, h)).
  { intros l. unfold g. rewrite format_result_run.
    unfold mbind, outcome_bind, mret, outcome_ret.
    destruct (format_result_value threshold h l p) as [d |]; split.
    - intros _. by exists d.
    - intros _. by exists (VDict d).
    - intros [v Hv]. discriminate Hv.
    - intros [d Hd]. discriminate Hd. }
  transitivity (mapM g items = Raise e).
  { unfold mbind at 1, outcome_bind at 1, mret, outcome_ret.
    destruct (mapM g items); split; congruence. }
  rewrite mapM_Raise. split.
  - intros (i & l & Hi & Hl & Hbefore). exists i, l.
    repeat apply conj; [exact Hi | by apply Hraise |].
    intros j l' Hj Hl'. apply Hret. by eapply Hbefore.
  - intros (i & l & Hi & Hl & Hbefore). exists i, l.
    repeat apply conj; [exact Hi | by apply Hraise |].
    intros j l' Hj Hl'. apply Hret. by eapply Hbefore.
Qed.

(** X3: on a list of well-typed results [format_results] returns for every
    precision [0 <= p] or [p < NDIGITS_MIN], and for the others returns or
    raises [OverflowError], nothing else. *)
Theorem format_results_total_or_overflow h ll items sid rec p :
  results_at h ll items →
  (0 <= p ∨ p < NDIGITS_MIN →
     ∃ out, format_results threshold ll sid rec p h = (Ret out, h)) ∧
  ((∃ out, format_results threshold ll sid rec p h = (Ret out, h)) ∨
   format_results threshold ll sid rec p h = (Raise OverflowError, h)).
Proof.
  intros Hres. split; [by apply format_results_returns with items |].
  destruct Hres as [Hll Hitems].
  rewrite format_results_run. unfold format_results_value. rewrite Hll.
  destruct (mapM _ items) as [ayahs | e] eqn:Hmap; [left; by eexists |].
  right. apply mapM_raises in Hmap as (l & Hl & He).
  rewrite Forall_forall in Hitems.
  destruct (Hitems l Hl) as (r & a & Hat & _).
  rewrite (format_result_value_at _ h l r a p Hat) in He.
  unfold mbind, outcome_bind in He.
  destruct (rounded_dict threshold r a p) eqn:Hd; [discriminate He |].
  injection He as <-. apply rounded_dict_raises in Hd as ->. reflexivity.
Qed.

(** X4: formatting a concatenation is concatenating the formatted lists. *)
Theorem format_results_app h ll1 ll2 ll items1 items2 sid rec p out1 out2 :
  h !! ll1 = Some (OList items1) → h !! ll2 = Some (OList items2) →
  h !! ll = Some (OList (items1 ++ items2)) →
  format_results threshold ll1 sid rec p h = (Ret out1, h) →
  format_results threshold ll2 sid rec p h = (Ret out2, h) →
  ∃ ayahs1 ayahs2 out,
    out1 !! "ayahs" = Some (VList ayahs1) ∧
    out2 !! "ayahs" = Some (VList ayahs2) ∧
    format_results threshold ll sid rec p h = (Ret out, h) ∧
    out !! "ayahs" = Some (VList (ayahs1 ++ ayahs2)).
Proof.
  intros Hll1 Hll2 Hll H1 H2.
  apply format_results_Ret in H1 as (_ & items1' & ayahs1 & Hll1' & Hall1 & ->).
  apply format_results_Ret in H2 as (_ & items2' & ayahs2 & Hll2' & Hall2 & ->).
  assert (items1' = items1) as -> by congruence.
  assert (items2' = items2) as -> by congruence.
  exists ayahs1, ayahs2, (results_dict sid rec (ayahs1 ++ ayahs2)).
  repeat apply conj; try apply results_dict_lookup.
  rewrite format_results_run. unfold format_results_value. rewrite Hll.
  set (g := λ l, d ← format_result_value threshold h l p; mret (VDict d)).
  assert (Hg : ∀ l v,
    (∃ d, format_result threshold l p h = (Ret d, h) ∧ v = VDict d) → g l = Ret v).
  { intros l v (d & Hd & ->). rewrite format_result_run in Hd.
    injection Hd as Hd. unfold g. rewrite Hd. reflexivity. }
  assert (Hmap : mapM g (items1 ++ items2) = Ret (ayahs1 ++ ayahs2)).
  { apply mapM_Ret, Forall2_app; eapply Forall2_impl; eassumption. }
  rewrite Hmap. reflexivity.
Qed.

(** X5: [surah_id] and [reciter] play no part in formatting the results: a
    call with them is the call without them followed by the two optional
    assignments, and raises what the call without them raises. *)
Theorem format_results_metadata h ll sid rec p :
  (format_results threshold ll sid rec p h).1
  = (out ← (format_results threshold ll None None p h).1;
     mret (with_metadata sid rec out)).
Proof.
  rewrite !format_results_run. cbn [fst]. unfold format_results_value.
  destruct (h !! ll) as [[| | items] |]; try reflexivity.
  unfold mbind, outcome_bind. destruct (mapM _ items); reflexivity.
Qed.

(** X6: rounding keeps a similarity score within [0, 1]: when
    [0 <= similarity_score <= 1], so is the value in the dict, at every
    precision. *)
Theorem similarity_score_stays_in_unit_interval h l r a p d h' :
  result_at h l r a →
  valid (AlignmentResult.similarity_score r) = true →
  leb zero (AlignmentResult.similarity_score r) = true →
  leb (AlignmentResult.similarity_score r) one = true →
  format_result threshold l p h = (Ret d, h') →
  ∃ sc, float_at d "similarity_score" = Some sc ∧
        leb zero sc = true ∧ leb sc one = true.
Proof.
  intros Hat Hv H0 H1 Hrun.
  apply (format_result_Ret _ h l r a) in Hrun as [_ Hd]; [| exact Hat].
  apply rounded_dict_Ret in Hd as (st & en & du & sc & _ & _ & _ & Hsc & ->).
  exists sc. split; [reflexivity |]. by eapply round_le_one.
Qed.

(** X7: [OverflowError] needs an enormous value: when the exponents of
    [start_time] and [end_time] are at most 967 and that of
    [similarity_score] at most 969 (magnitudes below [2 ^ 1020] and
    [2 ^ 1022]), [format_result] returns at every precision, negative ones
    included. *)
Theorem format_result_returns_for_moderate_values h l r a p :
  result_at h l r a →
  below 967 (AlignmentResult.start_time r) →
  below 967 (AlignmentResult.end_time r) →
  below 969 (AlignmentResult.similarity_score r) →
  ∃ d, format_result threshold l p h = (Ret d, h).
Proof.
  intros Hat Hst Hen Hsc.
  destruct (rounded_dict_returns_moderate threshold r a p Hst Hen Hsc) as [d Hd].
  exists d. rewrite format_result_run, (format_result_value_at _ h l r a p Hat), Hd.
  reflexivity.
Qed.

(** X8: rounding keeps the times in order: when [start_time <= end_time],
    the [start_time] in the dict is at most the [end_time] in the dict. *)
Theorem rounded_times_stay_ordered h l r a p d h' :
  result_at h l r a →
  valid (AlignmentResult.start_time r) = true →
  valid (AlignmentResult.end_time r) = true →
  leb (AlignmentResult.start_time r) (AlignmentResult.end_time r) = true →
  format_result threshold l p h = (Ret d, h') →
  ∃ st en, float_at d "start_time" = Some st ∧ float_at d "end_time" = Some en ∧
           leb st en = true.
Proof.
  intros Hat Hvs Hve Hle Hrun.
  apply (format_result_Ret _ h l r a) in Hrun as [_ Hd]; [| exact Hat].
  apply rounded_dict_Ret in Hd as (st & en & du & sc & Hst & Hen & _ & _ & ->).
  exists st, en. repeat apply conj; try reflexivity.
  exact (round_monotone _ _ p st en Hvs Hve Hle Hst Hen).
Qed.

(** X9: with a precision above [NDIGITS_MAX] (323) nothing is rounded:
    [format_result] returns and the four float values are the attributes
    themselves. *)
Theorem precision_above_max_keeps_floats h l r a p :
  result_at h l r a → NDIGITS_MAX < p →
  ∃ d, format_result threshold l p h = (Ret d, h) ∧
       float_at d "start_time" = Some (AlignmentResult.start_time r) ∧
       float_at d "end_time" = Some (AlignmentResult.end_time r) ∧
       float_at d "duration" = Some (AlignmentResult.duration r) ∧
       float_at d "similarity_score" = Some (AlignmentResult.similarity_score r).
Proof.
  intros Hat Hp. eexists. split; [| apply canonical_dict_floats].
  rewrite format_result_run, (format_result_value_at _ h l r a p Hat).
  unfold rounded_dict. rewrite !round_above by exact Hp. reflexivity.
Qed.

(** X10: with a precision below [NDIGITS_MIN] (-308) every finite value is
    rounded to zero: [format_result] returns, and a float value in the dict
    is [== 0.0] when the attribute is finite. *)
Theorem precision_below_min_zeroes_floats h l r a p :
  result_at h l r a → p < NDIGITS_MIN →
  ∃ d st en du sc,
    format_result threshold l p h = (Ret d, h) ∧
    float_at d "start_time" = Some st ∧ float_at d "end_time" = Some en ∧
    float_at d "duration" = Some du ∧ float_at d "similarity_score" = Some sc ∧
    (is_finite (AlignmentResult.start_time r) = true → eqb st zero = true) ∧
    (is_finite (AlignmentResult.end_time r) = true → eqb en zero = true) ∧
    (is_finite (AlignmentResult.duration r) = true → eqb du zero = true) ∧
    (is_finite (AlignmentResult.similarity_score r) = true → eqb sc zero = true).
Proof.
  intros Hat Hp.
  destruct (round_returns_below (AlignmentResult.start_time r) p Hp) as [st Hst].
  destruct (round_returns_below (AlignmentResult.end_time r) p Hp) as [en Hen].
  destruct (round_returns_below (AlignmentResult.duration r) p Hp) as [du Hdu].
  destruct (round_returns_below (AlignmentResult.similarity_score r) p Hp)
    as [sc Hsc].
  exists (canonical_dict threshold r a st en du sc), st, en, du, sc.
  split.
  { rewrite format_result_run, (format_result_value_at _ h l r a p Hat).
    unfold rounded_dict. rewrite Hst, Hen, Hdu, Hsc. reflexivity. }
  do 4 (split; [reflexivity |]).
  repeat apply conj; intros Hfin;
    match goal with
    | H : round ?x p = Ret ?y |- eqb ?y zero = true =>
        destruct (round_below_zero x p Hp Hfin) as (z & Hz & Hz0);
        rewrite H in Hz; injection Hz as ->; exact Hz0
    end.
Qed.

(** X11: a NaN or an infinity passes through unchanged at every precision:
    the value in the dict is the attribute itself. *)
Theorem non_finite_floats_pass_through h l r a p d h' :
  result_at h l r a →
  format_result threshold l p h = (Ret d, h') →
  (is_finite (AlignmentResult.start_time r) = false →
     float_at d "start_time" = Some (AlignmentResult.start_time r)) ∧
  (is_finite (AlignmentResult.end_time r) = false →
     float_at d "end_time" = Some (AlignmentResult.end_time r)) ∧
  (is_finite (AlignmentResult.duration r) = false →
     float_at d "duration" = Some (AlignmentResult.duration r)) ∧
  (is_finite (AlignmentResult.similarity_score r) = false →
     float_at d "similarity_score" = Some (AlignmentResult.similarity_score r)).
Proof.
  intros Hat Hrun.
  apply (format_result_Ret _ h l r a) in Hrun as [_ Hd]; [| exact Hat].
  apply rounded_dict_Ret in Hd as (st & en & du & sc & Hst & Hen & Hdu & Hsc & ->).
  repeat apply conj; intros Hfin;
    match goal with
    | H : round ?x p = Ret ?y |- float_at _ _ = Some ?x =>
        rewrite (round_non_finite x p Hfin) in H; injection H as <-; reflexivity
    end.
Qed.

(** X12: the precision bears on the four float values only: two calls on
    the same result with two precisions return dicts with the same keys and
    the same value under every key other than [start_time], [end_time],
    [duration] and [similarity_score]. *)
Theorem precision_only_affects_floats h l p1 p2 d1 d2 h1 h2 :
  format_result threshold l p1 h = (Ret d1, h1) →
  format_result threshold l p2 h = (Ret d2, h2) →
  dom d1 = dom d2 ∧ ∀ k, k ∉ float_keys → d1 !! k = d2 !! k.
Proof.
  intros H1 H2.
  apply format_result_Ret_any in H1
    as (_ & r & a & st & en & du & sc & [Hl Ha] & _ & _ & _ & _ & ->).
  apply format_result_Ret_any in H2
    as (_ & r' & a' & st' & en' & du' & sc' & [Hl' Ha'] & _ & _ & _ & _ & ->).
  assert (r' = r) as -> by congruence. assert (a' = a) as -> by congruence.
  split; [by rewrite !canonical_dict_dom |].
  intros k Hk. by apply canonical_dict_frame.
Qed.

(** X13: whenever [format_results] returns, on any store, every entry of
    [ayahs] is a dict with exactly the ten canonical keys. *)
Theorem ayahs_entries_have_canonical_keys h ll sid rec p out h' :
  format_results threshold ll sid rec p h = (Ret out, h') →
  ∃ ayahs, out !! "ayahs" = Some (VList ayahs) ∧
           Forall (λ v, ∃ d, v = VDict d ∧ dom d = canonical_keys) ayahs.
Proof.
  intros Hrun.
  apply format_results_Ret in Hrun as (_ & items & ayahs & _ & Hall & ->).
  exists ayahs. split; [apply results_dict_lookup |].
  induction Hall as [| l v items ayahs (d & Hd & ->) _ IH]; constructor;
    [| exact IH].
  exists d. split; [reflexivity |].
  apply format_result_Ret_any in Hd
    as (_ & r & a & st & en & du & sc & _ & _ & _ & _ & _ & ->).
  apply canonical_dict_dom.
Qed.

(** X14: a span of no length has a duration of zero in the dict: when
    [start_time == end_time] and both are finite, the value under
    [duration] is [== 0.0] at every precision. *)
Theorem equal_times_give_zero_duration h l r a p d h' :
  result_at h l r a →
  is_finite (AlignmentResult.end_time r) = true →
  eqb (AlignmentResult.end_time r) (AlignmentResult.start_time r) = true →
  format_result threshold l p h = (Ret d, h') →
  ∃ du, float_at d "duration" = Some du ∧ eqb du zero = true.
Proof.
  intros Hat Hfin Heq Hrun.
  apply (format_result_Ret _ h l r a) in Hrun as [_ Hd]; [| exact Hat].
  apply rounded_dict_Ret in Hd as (st & en & du & sc & _ & _ & Hdu & _ & ->).
  exists du. split; [reflexivity |].
  pose proof (sub_equal _ _ Hfin Heq) as Hzero.
  unfold AlignmentResult.duration in Hdu.
  destruct (sub _ _) as [s | s | | s m e]; try (destruct s; discriminate Hzero).
  - rewrite round_zero in Hdu. by injection Hdu as <-.
  - discriminate Hzero.
Qed.

(** X15: rounding produces no negative time: when [start_time >= 0] and
    [end_time >= 0], so are the two values in the dict (a negative zero
    counts as zero). *)
Theorem nonnegative_times_stay_nonnegative h l r a p d h' :
  result_at h l r a →
  leb zero (AlignmentResult.start_time r) = true →
  leb zero (AlignmentResult.end_time r) = true →
  format_result threshold l p h = (Ret d, h') →
  ∃ st en, float_at d "start_time" = Some st ∧ float_at d "end_time" = Some en ∧
           leb zero st = true ∧ leb zero en = true.
Proof.
  intros Hat Hs He Hrun.
  apply (format_result_Ret _ h l r a) in Hrun as [_ Hd]; [| exact Hat].
  apply rounded_dict_Ret in Hd as (st & en & du & sc & Hst & Hen & _ & _ & ->).
  exists st, en. repeat apply conj; try reflexivity.
  - exact (round_nonneg _ p st Hs Hst).
  - exact (round_nonneg _ p en He Hen).
Qed.

End Extras.

(** * The further properties on the sample objects *)

Lemma more_samples_at :
  result_at MoreSamples.store 3%positive Sample.result1 Sample.ayah1 ∧
  result_at MoreSamples.store 4%positive Sample.result2 Sample.ayah2 ∧
  result_at MoreSamples.store 5%positive Sample.result3 Sample.ayah1 ∧
  result_at MoreSamples.store 11%positive MoreSamples.result4 Sample.ayah2.
Proof. repeat apply conj; reflexivity. Qed.

Lemma more_samples_lists :
  results_at MoreSamples.store 9%positive [3]%positive ∧
  results_at MoreSamples.store 10%positive [4]%positive ∧
  results_at MoreSamples.store 6%positive [3; 4]%positive.
Proof.
  assert (H3 : well_typed MoreSamples.store 3%positive).
  { exists Sample.result1, Sample.ayah1.
    split; [apply more_samples_at | apply sample_floats_valid]. }
  assert (H4 : well_typed MoreSamples.store 4%positive).
  { exists Sample.result2, Sample.ayah2.
    split; [apply more_samples_at | apply sample_floats_valid]. }
  repeat apply conj; try reflexivity; repeat constructor; assumption.
Qed.

Lemma sample_result1_moderate :
  below 967 (AlignmentResult.start_time Sample.result1) ∧
  below 967 (AlignmentResult.end_time Sample.result1) ∧
  below 969 (AlignmentResult.similarity_score Sample.result1).
Proof. repeat apply conj; (reflexivity || (cbn; lia)). Qed.

(** X1 on the two fixtures, with a [surah_id] and no reciter. *)
Lemma format_results_keys_witness :
  ∃ out, format_results Sample.threshold 6%positive (Some 1) None 3 Sample.store
           = (Ret out, Sample.store) ∧
         dom out = {["ayahs"]} ∪ {["surah_id"]} ∪ ∅.
Proof.
  destruct (format_results_returns Sample.threshold Sample.store 6%positive
              [3; 4]%positive (Some 1) None 3 sample_results_at ltac:(left; done))
    as [out Hrun].
  exists out. split; [exact Hrun |].
  exact (format_results_keys Sample.threshold _ _ _ _ _ _ _ Hrun).
Defined.

(** X2 on the list holding the largest float in second place, with
    [precision=-308]: the first element formats, the second raises. *)
Lemma format_results_raises_first_witness :
  MoreSamples.store !! 8%positive = Some (OList [3; 5; 4]%positive) ∧
  format_results Sample.threshold 8%positive None None (-308) MoreSamples.store
  = (Raise OverflowError, MoreSamples.store).
Proof.
  split; [reflexivity |].
  apply (format_results_raises_first Sample.threshold MoreSamples.store 8%positive
           [3; 5; 4]%positive None None (-308) OverflowError eq_refl).
  exists 1%nat, 5%positive. split; [reflexivity |]. split.
  - vm_compute. reflexivity.
  - intros [| j] l' Hj Hl'; [| lia]. injection Hl' as <-.
    destruct sample_result1_moderate as (H1 & H2 & H3).
    destruct (rounded_dict_returns_moderate Sample.threshold Sample.result1
                Sample.ayah1 (-308) H1 H2 H3) as [d Hd].
    exists d.
    rewrite format_result_run,
      (format_result_value_at _ _ _ _ _ _ (proj1 more_samples_at)), Hd.
    reflexivity.
Defined.

(** X3 on the two fixtures. *)
Lemma format_results_total_or_overflow_witness :
  results_at Sample.store 6%positive [3; 4]%positive ∧
  ∃ out, format_results Sample.threshold 6%positive None None (-400) Sample.store
         = (Ret out, Sample.store).
Proof.
  split; [exact sample_results_at |].
  apply (format_results_total_or_overflow Sample.threshold _ _ _ None None (-400)
           sample_results_at).
  right. reflexivity.
Defined.

(** X4 on the two singleton lists and the list of the two fixtures. *)
Lemma format_results_app_witness :
  ∃ out1 out2 ayahs1 ayahs2 out,
    format_results Sample.threshold 9%positive None None 3 MoreSamples.store
      = (Ret out1, MoreSamples.store) ∧
    format_results Sample.threshold 10%positive None None 3 MoreSamples.store
      = (Ret out2, MoreSamples.store) ∧
    out1 !! "ayahs" = Some (VList ayahs1) ∧
    out2 !! "ayahs" = Some (VList ayahs2) ∧
    format_results Sample.threshold 6%positive None None 3 MoreSamples.store
      = (Ret out, MoreSamples.store) ∧
    out !! "ayahs" = Some (VList (ayahs1 ++ ayahs2)).
Proof.
  destruct more_samples_lists as (L9 & L10 & _).
  destruct (format_results_returns Sample.threshold _ _ _ None None 3 L9
              ltac:(left; done)) as [out1 H1].
  destruct (format_results_returns Sample.threshold _ _ _ None None 3 L10
              ltac:(left; done)) as [out2 H2].
  destruct (format_results_app Sample.threshold MoreSamples.store
              9%positive 10%positive 6%positive [3]%positive [4]%positive
              None None 3 out1 out2 eq_refl eq_refl eq_refl H1 H2)
    as (ayahs1 & ayahs2 & out & Ha1 & Ha2 & Hrun & Hout).
  exists out1, out2, ayahs1, ayahs2, out. repeat apply conj; assumption.
Defined.

(** X6 on the first fixture, [similarity_score=0.9567]. *)
Lemma similarity_score_stays_in_unit_interval_witness :
  valid (AlignmentResult.similarity_score Sample.result1) = true ∧
  leb zero (AlignmentResult.similarity_score Sample.result1) = true ∧
  leb (AlignmentResult.similarity_score Sample.result1) one = true ∧
  ∃ d sc, format_result Sample.threshold 3%positive 3 Sample.store
            = (Ret d, Sample.store) ∧
          float_at d "similarity_score" = Some sc ∧
          leb zero sc = true ∧ leb sc one = true.
Proof.
  assert (Hv : valid (AlignmentResult.similarity_score Sample.result1) = true)
    by (vm_compute; reflexivity).
  assert (H0 : leb zero (AlignmentResult.similarity_score Sample.result1) = true)
    by (vm_compute; reflexivity).
  assert (H1 : leb (AlignmentResult.similarity_score Sample.result1) one = true)
    by (vm_compute; reflexivity).
  destruct (format_result_returns Sample.threshold Sample.store 3%positive 3
              ltac:(exists Sample.result1, Sample.ayah1;
                    split; [exact sample_result1_at | apply sample_floats_valid])
              ltac:(left; done)) as [d Hrun].
  destruct (similarity_score_stays_in_unit_interval Sample.threshold _ _ _ _ _ _ _
              sample_result1_at Hv H0 H1 Hrun) as (sc & Hsc & Hlo & Hhi).
  repeat (split; [assumption |]). exists d, sc. repeat apply conj; assumption.
Defined.

(** X7 on the first fixture, with [precision=-308]. *)
Lemma format_result_returns_for_moderate_values_witness :
  below 967 (AlignmentResult.start_time Sample.result1) ∧
  below 967 (AlignmentResult.end_time Sample.result1) ∧
  below 969 (AlignmentResult.similarity_score Sample.result1) ∧
  ∃ d, format_result Sample.threshold 3%positive (-308) Sample.store
       = (Ret d, Sample.store).
Proof.
  destruct sample_result1_moderate as (H1 & H2 & H3).
  repeat (split; [assumption |]).
  exact (format_result_returns_for_moderate_values Sample.threshold _ _ _ _ (-308)
           sample_result1_at H1 H2 H3).
Defined.

(** X8 on the first fixture. *)
Lemma rounded_times_stay_ordered_witness :
  leb (AlignmentResult.start_time Sample.result1)
      (AlignmentResult.end_time Sample.result1) = true ∧
  ∃ d st en, format_result Sample.threshold 3%positive 3 Sample.store
               = (Ret d, Sample.store) ∧
             float_at d "start_time" = Some st ∧
             float_at d "end_time" = Some en ∧ leb st en = true.
Proof.
  assert (Hvs : valid (AlignmentResult.start_time Sample.result1) = true)
    by (vm_compute; reflexivity).
  assert (Hve : valid (AlignmentResult.end_time Sample.result1) = true)
    by (vm_compute; reflexivity).
  assert (Hle : leb (AlignmentResult.start_time Sample.result1)
                    (AlignmentResult.end_time Sample.result1) = true)
    by (vm_compute; reflexivity).
  destruct (format_result_returns Sample.threshold Sample.store 3%positive 3
              ltac:(exists Sample.result1, Sample.ayah1;
                    split; [exact sample_result1_at | apply sample_floats_valid])
              ltac:(left; done)) as [d Hrun].
  destruct (rounded_times_stay_ordered Sample.threshold _ _ _ _ _ _ _
              sample_result1_at Hvs Hve Hle Hrun) as (st & en & Hst & Hen & Hord).
  split; [exact Hle |]. exists d, st, en. repeat apply conj; assumption.
Defined.

(** X9 on the first fixture, with [precision=400]. *)
Lemma precision_above_max_keeps_floats_witness :
  ∃ d, format_result Sample.threshold 3%positive 400 Sample.store
         = (Ret d, Sample.store) ∧
       float_at d "start_time" = Some (AlignmentResult.start_time Sample.result1).
Proof.
  destruct (precision_above_max_keeps_floats Sample.threshold _ _ _ _ 400
              sample_result1_at eq_refl) as (d & Hrun & Hst & _).
  exists d. split; assumption.
Defined.

(** X10 on the first fixture, with [precision=-400]. *)
Lemma precision_below_min_zeroes_floats_witness :
  ∃ d st, format_result Sample.threshold 3%positive (-400) Sample.store
            = (Ret d, Sample.store) ∧
          float_at d "start_time" = Some st ∧ eqb st zero = true.
Proof.
  destruct (precision_below_min_zeroes_floats Sample.threshold _ _ _ _ (-400)
              sample_result1_at eq_refl)
    as (d & st & en & du & sc & Hrun & Hst & _ & _ & _ & Hzero & _).
  exists d, st. repeat apply conj; try assumption. apply Hzero. reflexivity.
Defined.

(** X11 on the result whose [similarity_score] is a NaN. *)
Lemma non_finite_floats_pass_through_witness :
  ∃ d, format_result Sample.threshold 11%positive 3 MoreSamples.store
         = (Ret d, MoreSamples.store) ∧
       float_at d "similarity_score" = Some S754_nan.
Proof.
  pose proof (proj2 (proj2 (proj2 more_samples_at))) as Hat.
  destruct (format_result_returns Sample.threshold MoreSamples.store 11%positive 3
              ltac:(exists MoreSamples.result4, Sample.ayah2;
                    split; [exact Hat | reflexivity])
              ltac:(left; done)) as [d Hrun].
  exists d. split; [exact Hrun |].
  apply (non_finite_floats_pass_through Sample.threshold _ _ _ _ _ _ _ Hat Hrun).
  reflexivity.
Defined.

(** X12 on the first fixture, with precisions 3 and 2. *)
Lemma precision_only_affects_floats_witness :
  ∃ d1 d2,
    format_result Sample.threshold 3%positive 3 Sample.store = (Ret d1, Sample.store) ∧
    format_result Sample.threshold 3%positive 2 Sample.store = (Ret d2, Sample.store) ∧
    d1 !! "transcribed_text" = d2 !! "transcribed_text".
Proof.
  assert (Hwt : well_typed Sample.store 3%positive).
  { exists Sample.result1, Sample.ayah1.
    split; [exact sample_result1_at | apply sample_floats_valid]. }
  destruct (format_result_returns Sample.threshold _ _ 3 Hwt ltac:(left; done))
    as [d1 H1].
  destruct (format_result_returns Sample.threshold _ _ 2 Hwt ltac:(left; done))
    as [d2 H2].
  exists d1, d2. split; [exact H1 |]. split; [exact H2 |].
  apply (precision_only_affects_floats Sample.threshold _ _ _ _ _ _ _ _ H1 H2).
  vm_compute. intros H. discriminate H.
Defined.

(** X13 on the two fixtures. *)
Lemma ayahs_entries_have_canonical_keys_witness :
  ∃ out ayahs,
    format_results Sample.threshold 6%positive None None 3 Sample.store
      = (Ret out, Sample.store) ∧
    out !! "ayahs" = Some (VList ayahs) ∧
    Forall (λ v, ∃ d, v = VDict d ∧ dom d = canonical_keys) ayahs.
Proof.
  destruct (format_results_returns Sample.threshold Sample.store 6%positive
              [3; 4]%positive None None 3 sample_results_at ltac:(left; done))
    as [out Hrun].
  destruct (ayahs_entries_have_canonical_keys Sample.threshold _ _ _ _ _ _ _ Hrun)
    as (ayahs & Hlook & Hall).
  exists out, ayahs. repeat apply conj; assumption.
Defined.

(** X14 on the result with [start_time=10.0] and [end_time=10.0]. *)
Lemma equal_times_give_zero_duration_witness :
  is_finite (AlignmentResult.end_time MoreSamples.result4) = true ∧
  eqb (AlignmentResult.end_time MoreSamples.result4)
      (AlignmentResult.start_time MoreSamples.result4) = true ∧
  ∃ d du, format_result Sample.threshold 11%positive 3 MoreSamples.store
            = (Ret d, MoreSamples.store) ∧
          float_at d "duration" = Some du ∧ eqb du zero = true.
Proof.
  pose proof (proj2 (proj2 (proj2 more_samples_at))) as Hat.
  destruct (format_result_returns Sample.threshold MoreSamples.store 11%positive 3
              ltac:(exists MoreSamples.result4, Sample.ayah2;
                    split; [exact Hat | reflexivity])
              ltac:(left; done)) as [d Hrun].
  destruct (equal_times_give_zero_duration Sample.threshold _ _ _ _ _ _ _
              Hat eq_refl eq_refl Hrun) as (du & Hdu & Hzero).
  split; [reflexivity |]. split; [reflexivity |].
  exists d, du. repeat apply conj; assumption.
Defined.

(** X15 on the first fixture. *)
Lemma nonnegative_times_stay_nonnegative_witness :
  leb zero (AlignmentResult.start_time Sample.result1) = true ∧
  leb zero (AlignmentResult.end_time Sample.result1) = true ∧
  ∃ d st en, format_result Sample.threshold 3%positive 3 Sample.store
               = (Ret d, Sample.store) ∧
             float_at d "start_time" = Some st ∧
             float_at d "end_time" = Some en ∧
             leb zero st = true ∧ leb zero en = true.
Proof.
  destruct (format_result_returns Sample.threshold Sample.store 3%positive 3
              ltac:(exists Sample.result1, Sample.ayah1;
                    split; [exact sample_result1_at | apply sample_floats_valid])
              ltac:(left; done)) as [d Hrun].
  destruct (nonnegative_times_stay_nonnegative Sample.threshold _ _ _ _ _ _ _
              sample_result1_at eq_refl eq_refl Hrun)
    as (st & en & Hst & Hen & H0 & H1).
  split; [reflexivity |]. split; [reflexivity |].
  exists d, st, en. repeat apply conj; assumption.
Defined.
